(** * The capability gateway of .vas-ai-hospital

    A shallow embedding of [.vas-ai-hospital/ai_api.py] (the registry, the
    encryption handlers, the audit logger and the [/invoke] endpoint) and of
    the dispatcher of the older
    [services_backup_20251020_220935/ai-api-service/ai_api.py], followed by
    the properties of the gateway specification checked against them.

    Conventions.
    - A Python [str] is a [string], the text given by its UTF-8 bytes (so
      text is what has such an encoding), and a [bytes] object is a
      [list byte]; [str.encode] and [bytes.decode] are the conversions
      between the two.
    - A JSON-compatible Python value is a [PyVal]; a [dict] with string keys
      is an association list in insertion order, each key once.
    - Everything outside the process (wall clock, entropy, the Redis server,
      the logging sink) is gathered in a [World] that is threaded through
      the code; a coroutine is a function on the [World] that either returns
      or raises.
    - [datetime] values are microsecond counts; the float that
      [total_seconds() * 1000] computes is the rational it approximates. *)

From Stdlib Require Import ZArith QArith String Ascii List.
From Stdlib.Strings Require Import Byte.
From stdpp Require Import base option gmap strings list fin_maps.
From Stdlib Require Import PrimFloat FloatOps SpecFloat.

Set Warnings "-register-all".
Set Warnings "-inexact-float".

Close Scope Q_scope.
Local Open Scope Z_scope.
Local Open Scope string_scope.
Local Open Scope list_scope.

(** ** Python values *)

Definition bytes := list byte.

Inductive PyVal : Type :=
| VNone
| VBool (b : bool)
| VInt (n : Z)
| VFloat (x : Q)
| VStr (s : string)
| VList (l : list PyVal)
| VDict (d : list (string * PyVal)).

Definition PyDict := list (string * PyVal).

(** [d.get(key)]: the value stored under [key], [None] when it is absent. *)
Fixpoint dict_lookup (key : string) (d : PyDict) : option PyVal :=
  match d with
  | [] => None
  | (k, v) :: rest => if String.eqb k key then Some v else dict_lookup key rest
  end.

Definition dict_get (d : PyDict) (key : string) (default : PyVal) : PyVal :=
  match dict_lookup key d with
  | Some v => v
  | None => default
  end.

(** Truth value testing, as [not x] and [if x] use it. *)
Definition truthy (v : PyVal) : bool :=
  match v with
  | VNone => false
  | VBool b => b
  | VInt n => negb (Z.eqb n 0)
  | VFloat x => negb (Qeq_bool x 0%Q)
  | VStr s => negb (String.eqb s "")
  | VList l => match l with [] => false | _ => true end
  | VDict d => match d with [] => false | _ => true end
  end.

(** [type(v).__name__] *)
Definition type_name (v : PyVal) : string :=
  match v with
  | VNone => "NoneType"
  | VBool _ => "bool"
  | VInt _ => "int"
  | VFloat _ => "float"
  | VStr _ => "str"
  | VList _ => "list"
  | VDict _ => "dict"
  end.

Definition str_encode (s : string) : bytes := list_byte_of_string s.
Definition bytes_decode (b : bytes) : string := string_of_list_byte b.

(** ** Exceptions

    A [PyExc] is an instance of [Exception], which is what the handlers raise
    on failure and what [except Exception] catches.  The interpreter's exit
    signals ([SystemExit], [KeyboardInterrupt], task cancellation) derive
    from [BaseException] only; they are not failures of a handler and are
    not represented. *)

Inductive ExcClass : Type :=
| ValueError
| RuntimeError
| TypeError
| AttributeError
| InvalidToken          (* cryptography.fernet.InvalidToken *)
| ConnectionError       (* redis.exceptions.ConnectionError *)
| CapabilityError       (* the backup service's own exception *)
| OtherException (name : string).

Record PyExc : Type := mkExc {
  exc_class : ExcClass;
  exc_str : string            (* str(e) *)
}.

Inductive Outcome (A : Type) : Type :=
| Returned (a : A)
| Raised (e : PyExc).
Arguments Returned {A} a.
Arguments Raised {A} e.

(** ** The world outside the process *)

Record AuditEvent : Type := mkEvent {
  ev_timestamp : Z;           (* "timestamp": utcnow().isoformat() *)
  event_type : string;
  actor : PyVal;
  resource : string;
  action : string;
  details : PyDict
}.

Inductive Level : Type := INFO | WARNING | ERROR.

(** A log record keeps the values interpolated into the message. *)
Inductive LogMessage : Type :=
| MsgRegistered (name pillar_value : string)
    (* "✓ Registered capability: {name} (Pillar: {pillar.value})" *)
| MsgAudit (ev_type : string) (who : PyVal) (res act : string)
    (* "AUDIT: {event_type} | {actor} -> {resource} ({action})" *)
| MsgExecutionFailed (capability_name err : string)
    (* "Capability execution failed: {capability} | {str(e)}" *)
| MsgOverwriting (name : string)
    (* "Overwriting capability registration: {name}" *)
| MsgRegisteredBackup (name : string)
    (* "Registered capability: {name}" *)
| MsgNotFound (name : string)
    (* "Capability not found: {capability}" *)
| MsgInvocationFailed.
    (* "Capability invocation failed" *)

(** How the Redis server answers one command: after [latency] microseconds,
    with a connection failure when [failure] is set. *)
Record RedisReply : Type := mkReply {
  latency : Z;
  failure : option string
}.

Record World : Type := mkWorld {
  now : Z;                                    (* wall clock, microseconds *)
  entropy : bytes;                            (* what os.urandom will yield *)
  redis_replies : list RedisReply;            (* answers to the next commands;
                                                 none left: immediate success *)
  audit_log : list AuditEvent;                (* the Redis list "audit:log" *)
  audit_index : gmap (string * Z) (Z * AuditEvent);
                                              (* keys "audit:{type}:{time}",
                                                 each with its TTL in seconds *)
  log_records : list (Level * LogMessage)     (* what the logger received *)
}.

Definition set_now (t : Z) (w : World) : World :=
  mkWorld t (entropy w) (redis_replies w) (audit_log w) (audit_index w) (log_records w).
Definition set_entropy (e : bytes) (w : World) : World :=
  mkWorld (now w) e (redis_replies w) (audit_log w) (audit_index w) (log_records w).
Definition set_redis_replies (rs : list RedisReply) (w : World) : World :=
  mkWorld (now w) (entropy w) rs (audit_log w) (audit_index w) (log_records w).
Definition set_audit_log (l : list AuditEvent) (w : World) : World :=
  mkWorld (now w) (entropy w) (redis_replies w) l (audit_index w) (log_records w).
Definition set_audit_index (m : gmap (string * Z) (Z * AuditEvent)) (w : World) : World :=
  mkWorld (now w) (entropy w) (redis_replies w) (audit_log w) m (log_records w).
Definition set_log_records (l : list (Level * LogMessage)) (w : World) : World :=
  mkWorld (now w) (entropy w) (redis_replies w) (audit_log w) (audit_index w) l.

(** ** Coroutines: state and exceptions *)

Definition M (A : Type) : Type := World → Outcome A * World.

Definition ret {A} (a : A) : M A := fun w => (Returned a, w).
Definition raise {A} (e : PyExc) : M A := fun w => (Raised e, w).
Definition bind {A B} (m : M A) (k : A → M B) : M B :=
  fun w =>
    match m w with
    | (Returned a, w') => k a w'
    | (Raised e, w') => (Raised e, w')
    end.

#[global] Instance M_ret : MRet M := @ret.
#[global] Instance M_bind : MBind M := fun A B k m => bind m k.

(** [datetime.utcnow()] *)
Definition utcnow : M Z := fun w => (Returned (now w), w).

(** [logger.info], [logger.warning], [logger.error] *)
Definition logger (lvl : Level) (msg : LogMessage) : M unit :=
  fun w => (Returned tt, set_log_records (log_records w ++ [(lvl, msg)]) w).

(** One awaited Redis command: the server's next reply decides how long it
    takes and whether it fails; [effect] is what the command does to the
    store when it goes through. *)
Definition redis_command (effect : World → World) : M unit :=
  fun w =>
    match redis_replies w with
    | [] => (Returned tt, effect w)
    | r :: rest =>
        let w1 := set_redis_replies rest (set_now (now w + latency r) w) in
        match failure r with
        | Some msg => (Raised (mkExc ConnectionError msg), w1)
        | None => (Returned tt, effect w1)
        end
    end.

(** ** Data models (ai_api.py, lines 56-78) *)

Inductive ZFPPillar : Type := ENCRYPT | OBSERVE | PRESERVE | GOVERN | EMPATHY.

Definition pillar_value (p : ZFPPillar) : string :=
  match p with
  | ENCRYPT => "encrypt"
  | OBSERVE => "observe"
  | PRESERVE => "preserve"
  | GOVERN => "govern"
  | EMPATHY => "empathy"
  end.

Record CapabilityRequest : Type := mkRequest {
  capability : string;
  terms : PyDict;
  context : PyDict;
  request_pillar : option ZFPPillar
}.

Record CapabilityResponse : Type := mkResponse {
  success : bool;
  result : option PyDict;
  error : option string;
  pillar : option ZFPPillar;
  execution_time_ms : Q;
  timestamp : Z
}.

(** ** Handlers

    A registered callable is either a coroutine function ([async def]) or a
    plain function.  Both have a body that acts on the world and returns a
    dict or raises; they differ in what calling them yields. *)

Definition HandlerBody := PyDict → M PyDict.

Inductive Handler : Type :=
| AsyncFn (body : HandlerBody)
| SyncFn (body : HandlerBody).

(** ** CapabilityRegistry (ai_api.py, lines 84-116) *)

Record Metadata : Type := mkMetadata {
  md_pillar : string;
  description : string;
  registered_at : Z
}.

Record CapabilityRegistry : Type := mkRegistry {
  handlers : gmap string Handler;
  metadata : gmap string Metadata
}.

(** [CapabilityRegistry.__init__] *)
Definition registry_init : CapabilityRegistry := mkRegistry ∅ ∅.

Definition register (self : CapabilityRegistry) (name : string) (handler : Handler)
    (p : ZFPPillar) (descr : string) (w : World) : CapabilityRegistry * World :=
  let handlers' := <[name := handler]> (handlers self) in
  let metadata' :=
    <[name := mkMetadata (pillar_value p) descr (now w)]> (metadata self) in
  (mkRegistry handlers' metadata',
   set_log_records (log_records w ++ [(INFO, MsgRegistered name (pillar_value p))]) w).

Definition get_handler (self : CapabilityRegistry) (name : string) : option Handler :=
  handlers self !! name.

Definition list_capabilities (self : CapabilityRegistry) : gmap string Metadata :=
  metadata self.

(** A sequence of [register] calls, each given as its argument tuple. *)
Definition RegisterCall : Type := string * Handler * ZFPPillar * string.

Fixpoint register_all (calls : list RegisterCall) (self : CapabilityRegistry)
    (w : World) : CapabilityRegistry * World :=
  match calls with
  | [] => (self, w)
  | (name, handler, p, descr) :: rest =>
      let (self', w') := register self name handler p descr w in
      register_all rest self' w'
  end.

(** [GET /capabilities] (lines 419-425): the metadata and ["total"]. *)
Definition list_capabilities_endpoint (registry : CapabilityRegistry)
    : gmap string Metadata * nat :=
  (list_capabilities registry, size (handlers registry)).

(** ** Encryption (ai_api.py, lines 125-157)

    [cryptography.fernet.Fernet] is a library class outside this repository.
    A cipher object, already keyed, is taken through its two operations:
    [fernet_encrypt t iv data] is the token that [encrypt(data)] builds at
    time [t] (in seconds) from the 16 random bytes [iv]; [fernet_decrypt]
    gives the data back or has no answer, which is [InvalidToken]. *)

Record Fernet : Type := mkFernet {
  fernet_encrypt : Z → bytes → bytes → bytes;
  fernet_decrypt : bytes → option bytes
}.

(** What the library documents of a cipher object: a token decrypts, under
    the key that made it, to the data it was made from, and a token is
    never the empty byte string (it starts with a version byte). *)
Record FernetContract (c : Fernet) : Prop := {
  fernet_round_trip :
    ∀ t iv data, fernet_decrypt c (fernet_encrypt c t iv data) = Some data;
  fernet_token_nonempty :
    ∀ t iv data, fernet_encrypt c t iv data ≠ []
}.

Record EncryptionService : Type := mkEncryptionService {
  cipher : Fernet
}.

(** [EncryptionService.encrypt]: [self.cipher.encrypt(plaintext.encode()).decode()].
    Only a [str] has [encode]. *)
Definition encrypt (self : EncryptionService) (plaintext : PyVal) : M string :=
  match plaintext with
  | VStr s =>
      fun w =>
        let iv := take 16%nat (entropy w) in
        let token := fernet_encrypt (cipher self) (now w `div` 1000000) iv (str_encode s) in
        (Returned (bytes_decode token), set_entropy (drop 16%nat (entropy w)) w)
  | v => raise (mkExc AttributeError
                  ("'" +:+ type_name v +:+ "' object has no attribute 'encode'"))
  end.

(** [EncryptionService.decrypt]: [self.cipher.decrypt(ciphertext.encode()).decode()].
    [InvalidToken] is raised without arguments, so its [str] is empty. *)
Definition decrypt (self : EncryptionService) (ciphertext : PyVal) : M string :=
  match ciphertext with
  | VStr s =>
      match fernet_decrypt (cipher self) (str_encode s) with
      | Some data => mret (bytes_decode data)
      | None => raise (mkExc InvalidToken "")
      end
  | v => raise (mkExc AttributeError
                  ("'" +:+ type_name v +:+ "' object has no attribute 'encode'"))
  end.

(** ** Audit logging (ai_api.py, lines 163-197) *)

Inductive Redis : Type := RedisClient (host : string) (port : Z).

Record AuditLogger : Type := mkAuditLogger {
  redis : Redis
}.

(** [await self.redis.rpush("audit:log", json.dumps(event))] *)
Definition rpush_audit_log (event : AuditEvent) : M unit :=
  redis_command (fun w => set_audit_log (audit_log w ++ [event]) w).

(** [await self.redis.setex(event_id, ttl, json.dumps(event))] *)
Definition setex (event_id : string * Z) (ttl : Z) (event : AuditEvent) : M unit :=
  redis_command (fun w => set_audit_index (<[event_id := (ttl, event)]> (audit_index w)) w).

Definition log_event (self : AuditLogger) (ev_type : string) (who : PyVal)
    (res act : string) (dets : option PyDict) : M unit :=
  t ← utcnow;
  let event :=
    mkEvent t ev_type who res act
      (match dets with Some d => d | None => [] end) (* details or {} *) in
  _ ← rpush_audit_log event;
  t' ← utcnow;
  let event_id := (ev_type, t') in
  _ ← setex event_id (86400 * 30) event;
  logger INFO (MsgAudit ev_type who res act).

(** ** The gateway (ai_api.py, lines 141-157 and 427-478)

    The module's globals [encryption_service], [registry] and [audit_logger]
    are arguments. *)

Section Gateway.

Variable encryption_service : EncryptionService.

Definition handle_data_encrypt (terms : PyDict) : M PyDict :=
  let plaintext := dict_get terms "plaintext" VNone in
  if negb (truthy plaintext) then
    raise (mkExc ValueError "Missing 'plaintext' in terms")
  else
    ciphertext ← encrypt encryption_service plaintext;
    mret [("ciphertext", VStr ciphertext)].

Definition handle_data_decrypt (terms : PyDict) : M PyDict :=
  let ciphertext := dict_get terms "ciphertext" VNone in
  if negb (truthy ciphertext) then
    raise (mkExc ValueError "Missing 'ciphertext' in terms")
  else
    plaintext ← decrypt encryption_service ciphertext;
    mret [("plaintext", VStr plaintext)].

End Gateway.

(** [await handler(request.terms)].  Calling a coroutine function yields a
    coroutine, which [await] runs.  Calling a plain function runs it at once
    and yields its dict, which is not awaitable. *)
Definition await_call (handler : Handler) (terms : PyDict) : M PyDict :=
  match handler with
  | AsyncFn body => body terms
  | SyncFn body =>
      _ ← body terms;
      raise (mkExc TypeError "object dict can't be used in 'await' expression")
  end.

(** [timedelta.total_seconds()], for a difference given in microseconds. *)
Definition total_seconds (td : Z) : Q := td # 1000000.

(** What a call of the endpoint ends with: it returns a response or raises
    the [HTTPException] of the lookup. *)
Inductive InvokeOutcome : Type :=
| Response (r : CapabilityResponse)
| HTTPException (status_code : Z) (detail : string).

(** The [try] block of [invoke_capability]. *)
Definition invoke_try (audit_logger : option AuditLogger) (request : CapabilityRequest)
    (handler : Handler) (start_time : Z) : M CapabilityResponse :=
  result ← await_call handler (terms request);
  _ ← match audit_logger with
      | Some al =>
          log_event al "CAPABILITY_INVOKE"
            (dict_get (context request) "user_id" (VStr "SYSTEM"))
            (capability request) "EXECUTE"
            (Some [("terms", VDict (terms request))])
      | None => mret tt
      end;
  t ← utcnow;
  let execution_time := (total_seconds (t - start_time) * 1000)%Q in
  t' ← utcnow;
  mret (mkResponse true (Some result) None (request_pillar request) execution_time t').

(** The [except Exception as e] block. *)
Definition invoke_except (request : CapabilityRequest) (start_time : Z) (e : PyExc)
    (w : World) : CapabilityResponse * World :=
  let w' :=
    set_log_records
      (log_records w ++ [(ERROR, MsgExecutionFailed (capability request) (exc_str e))]) w in
  let execution_time := (total_seconds (now w' - start_time) * 1000)%Q in
  (mkResponse false None (Some (exc_str e)) (request_pillar request) execution_time (now w'),
   w').

Definition invoke_capability (registry : CapabilityRegistry)
    (audit_logger : option AuditLogger) (request : CapabilityRequest) (w : World)
    : InvokeOutcome * World :=
  let start_time := now w in
  match get_handler registry (capability request) with
  | None =>
      (HTTPException 404 ("Capability '" +:+ capability request +:+ "' not found"), w)
  | Some handler =>
      match invoke_try audit_logger request handler start_time w with
      | (Returned response, w') => (Response response, w')
      | (Raised e, w') =>
          let (response, w'') := invoke_except request start_time e w' in
          (Response response, w'')
      end
  end.

(** ** The dispatcher of the backup service
    (services_backup_20251020_220935/ai-api-service/ai_api.py, lines 16-58) *)

Module Backup.

Record CapabilityRegistry : Type := mkRegistry {
  _registry : gmap string Handler
}.

Definition registry_init : CapabilityRegistry := mkRegistry ∅.

Definition register (self : CapabilityRegistry) (name : string) (handler : Handler)
    (w : World) : CapabilityRegistry * World :=
  let w1 :=
    match _registry self !! name with
    | Some _ => set_log_records (log_records w ++ [(WARNING, MsgOverwriting name)]) w
    | None => w
    end in
  (mkRegistry (<[name := handler]> (_registry self)),
   set_log_records (log_records w1 ++ [(INFO, MsgRegisteredBackup name)]) w1).

Definition get (self : CapabilityRegistry) (name : string) : option Handler :=
  _registry self !! name.

(** The [try] block of [negotiate_core]: a coroutine function is awaited, any
    other callable is run in the executor and its value taken as it is. *)
Definition negotiate_try (handler : Handler) (capability : string) (terms : PyDict)
    : M PyDict :=
  result ← match handler with
           | AsyncFn body => body terms     (* asyncio.iscoroutinefunction *)
           | SyncFn body => body terms      (* loop.run_in_executor *)
           end;
  mret [("status", VStr "ok"); ("capability", VStr capability); ("result", VDict result)].

Definition negotiate_core (registry : CapabilityRegistry) (capability : string)
    (terms : PyDict) : M PyDict :=
  match get registry capability with
  | None =>
      _ ← logger WARNING (MsgNotFound capability);
      raise (mkExc CapabilityError ("Capability not found: " +:+ capability))
  | Some handler =>
      fun w =>
        match negotiate_try handler capability terms w with
        | (Returned r, w') => (Returned r, w')
        | (Raised e, w') =>
            (Returned [("status", VStr "error"); ("capability", VStr capability);
                       ("error", VStr (exc_str e))],
             set_log_records (log_records w' ++ [(ERROR, MsgInvocationFailed)]) w')
        end
  end.

End Backup.

(** ** A concrete setting for closed examples

    [marker_cipher] only frames the data with a marker byte.  It meets
    [FernetContract] and stands for the process's cipher object wherever a
    property is evaluated on a concrete request; no property depends on its
    strength. *)

Definition marker_cipher : Fernet :=
  mkFernet (fun _ _ data => x67 :: data)
           (fun token => match token with
                         | x67 :: data => Some data
                         | _ => None
                         end).

Definition demo_service : EncryptionService := mkEncryptionService marker_cipher.

Definition demo_logger : AuditLogger := mkAuditLogger (RedisClient "vas-redis" 6379).

(** A world at rest: the store answers at once and holds nothing. *)
Definition quiet_world : World := mkWorld 0 [] [] [] ∅ [].

(** The registry after the two encryption registrations of [startup_event]. *)
Definition demo_registry : CapabilityRegistry :=
  fst (register_all
         [("data:encrypt", AsyncFn (handle_data_encrypt demo_service), ENCRYPT,
           "Encrypt sensitive PHI data");
          ("data:decrypt", AsyncFn (handle_data_decrypt demo_service), ENCRYPT,
           "Decrypt sensitive PHI data")]
         registry_init quiet_world).

(** ** Notions used by the properties *)

(** The callable's body, whichever way it was defined. *)
Definition handler_body (handler : Handler) : HandlerBody :=
  match handler with
  | AsyncFn body => body
  | SyncFn body => body
  end.

(** The response that the [except] block builds for [e], caught in world
    [w1], when the invocation started in world [w], and the world it leaves. *)
Definition failure_response (request : CapabilityRequest) (w : World) (e : PyExc)
    (w1 : World) : CapabilityResponse :=
  mkResponse false None (Some (exc_str e)) (request_pillar request)
    (total_seconds (now w1 - now w) * 1000)%Q (now w1).

Definition failure_world (request : CapabilityRequest) (e : PyExc) (w1 : World) : World :=
  set_log_records
    (log_records w1 ++ [(ERROR, MsgExecutionFailed (capability request) (exc_str e))]) w1.

(** The token that [encrypt] returns for [x] in world [w], as a [str]. *)
Definition token_of (svc : EncryptionService) (x : string) (w : World) : string :=
  bytes_decode
    (fernet_encrypt (cipher svc) (now w `div` 1000000) (take 16%nat (entropy w))
       (str_encode x)).

(** The store goes through with the next command it receives. *)
Definition store_accepts (w : World) : bool :=
  match redis_replies w with
  | [] => true
  | r :: _ => match failure r with None => true | Some _ => false end
  end.

(** The event that [invoke_capability] hands to [log_event] at time [t]. *)
Definition invoke_event (request : CapabilityRequest) (t : Z) : AuditEvent :=
  mkEvent t "CAPABILITY_INVOKE"
    (dict_get (context request) "user_id" (VStr "SYSTEM"))
    (capability request) "EXECUTE"
    [("terms", VDict (terms request))].

(** [s] occurs in [msg]. *)
Definition contains (s msg : string) : Prop :=
  ∃ before after, msg = before +:+ s +:+ after.

(** The two maps of a registry list the same names. *)
Definition consistent (r : CapabilityRegistry) : Prop :=
  dom (handlers r) = dom (metadata r).

(** *** Statements of the gateway specification, as it words them *)

(** Section 4.2, step 6: one event whatever the handler's outcome. *)
Definition spec_audit_whatever_outcome (registry : CapabilityRegistry)
    (al : AuditLogger) (request : CapabilityRequest) (w : World) : Prop :=
  ∀ handler,
    get_handler registry (capability request) = Some handler →
    let w1 := snd (await_call handler (terms request) w) in
    ∃ ev,
      audit_log (snd (invoke_capability registry (Some al) request w))
      = audit_log w1 ++ [ev]
      ∧ event_type ev = "CAPABILITY_INVOKE"
      ∧ resource ev = capability request
      ∧ action ev = "EXECUTE"
      ∧ dict_lookup "terms" (details ev) = Some (VDict (terms request)).

(** Section 4.2, step 1: an unknown name gives a failure result and an
    EXECUTE_DENIED event. *)
Definition spec_unknown_name_result (registry : CapabilityRegistry)
    (al : AuditLogger) (request : CapabilityRequest) (w : World) : Prop :=
  get_handler registry (capability request) = None →
  ∃ response w' msg ev,
    invoke_capability registry (Some al) request w = (Response response, w')
    ∧ success response = false
    ∧ error response = Some msg
    ∧ contains (capability request) msg
    ∧ audit_log w' = audit_log w ++ [ev]
    ∧ action ev = "EXECUTE_DENIED".

(** Section 4.2, step 6: a failing audit write leaves a success a success. *)
Definition spec_audit_best_effort (registry : CapabilityRegistry)
    (al : AuditLogger) (request : CapabilityRequest) (w : World) : Prop :=
  ∀ handler r w1,
    get_handler registry (capability request) = Some handler →
    await_call handler (terms request) w = (Returned r, w1) →
    ∃ response w',
      invoke_capability registry (Some al) request w = (Response response, w')
      ∧ success response = true
      ∧ result response = Some r.

(** Section 4.2, step 5: the time reported is that of the handler alone. *)
Definition spec_time_of_handler_only (registry : CapabilityRegistry)
    (al : option AuditLogger) (request : CapabilityRequest) (w : World) : Prop :=
  ∀ handler response w',
    get_handler registry (capability request) = Some handler →
    invoke_capability registry al request w = (Response response, w') →
    let w1 := snd (await_call handler (terms request) w) in
    (execution_time_ms response == total_seconds (now w1 - now w) * 1000)%Q.

(** Section 4.2, step 6: the actor is [context.actor], else "SYSTEM". *)
Definition spec_actor_from_actor_key (registry : CapabilityRegistry)
    (al : AuditLogger) (request : CapabilityRequest) (w : World) : Prop :=
  ∀ ev,
    last (audit_log (snd (invoke_capability registry (Some al) request w))) = Some ev →
    actor ev = dict_get (context request) "actor" (VStr "SYSTEM").

(** Section 3: a plain function is served like a coroutine function. *)
Definition spec_sync_handler_served (registry : CapabilityRegistry)
    (al : option AuditLogger) (request : CapabilityRequest) (w : World) : Prop :=
  ∀ body r w1,
    get_handler registry (capability request) = Some (SyncFn body) →
    body (terms request) w = (Returned r, w1) →
    ∃ response w',
      invoke_capability registry al request w = (Response response, w')
      ∧ success response = true
      ∧ result response = Some r.

(** *** Concrete requests *)

(** A plain function, as the backup service's handlers are. *)
Definition ping (terms : PyDict) : M PyDict := mret [("pong", VBool true)].

Definition ping_registry : CapabilityRegistry :=
  fst (register demo_registry "sys:ping" (SyncFn ping) GOVERN "Liveness probe" quiet_world).

Definition encrypt_request : CapabilityRequest :=
  mkRequest "data:encrypt" [("plaintext", VStr "PHI-123")] [("actor", VStr "alice")]
    (Some ENCRYPT).

Definition empty_encrypt_request : CapabilityRequest :=
  mkRequest "data:encrypt" [] [] None.

Definition unknown_request : CapabilityRequest :=
  mkRequest "nope:nope" [] [] None.

Definition ping_request : CapabilityRequest :=
  mkRequest "sys:ping" [] [] None.

(** The store takes 2 ms for the first command and 3 ms for the second. *)
Definition slow_store_world : World :=
  set_redis_replies [mkReply 2000 None; mkReply 3000 None] quiet_world.

(** The store refuses the connection. *)
Definition broken_store_world : World :=
  set_redis_replies [mkReply 150 (Some "Error 111 connecting to vas-redis:6379. Connection refused.")]
    quiet_world.

(** ** Notions used by the further properties *)

Definition call_name (c : RegisterCall) : string :=
  match c with (name, _, _, _) => name end.

(** The handler given by the last call of [calls] that registers [name]. *)
Fixpoint last_registration (name : string) (calls : list RegisterCall) : option Handler :=
  match calls with
  | [] => None
  | (n, h, _, _) :: rest =>
      match last_registration name rest with
      | Some h' => Some h'
      | None => if String.eqb n name then Some h else None
      end
  end.

(** The record that [register] logs for a call. *)
Definition registration_record (c : RegisterCall) : Level * LogMessage :=
  match c with (name, _, p, _) => (INFO, MsgRegistered name (pillar_value p)) end.

(** What [log_event] builds from its arguments at time [t]. *)
Definition event_of (t : Z) (ev_type : string) (who : PyVal) (res act : string)
    (dets : option PyDict) : AuditEvent :=
  mkEvent t ev_type who res act (match dets with Some d => d | None => [] end).

(** ** More of Python: floats, attribute lookup, comparison

    A [float] of the code is a binary64 number: literals and arithmetic on
    them are the primitive floats'.  Inside a [PyVal] a float is the exact
    rational value of that number. *)

(** The rational value of a finite float (zero for a zero; an infinity or a
    NaN has none, and none arises from the literals and sums below). *)
Definition Q_of_float (f : float) : Q :=
  match Prim2SF f with
  | S754_finite s m e =>
      let mag :=
        if (0 <=? e)%Z then Qmake (Z.pos m * 2 ^ e) 1
        else Qmake (Z.pos m) (Pos.pow 2 (Z.to_pos (- e))) in
      if s then Qopp mag else mag
  | _ => Qmake 0 1
  end.

(** [v.get(key, default)]: only a dict has [get]. *)
Definition py_get (v : PyVal) (key : string) (default : PyVal) : M PyVal :=
  match v with
  | VDict d => mret (dict_get d key default)
  | _ => raise (mkExc AttributeError
                  ("'" +:+ type_name v +:+ "' object has no attribute 'get'"))
  end.

(** The number a value is in a comparison; [bool] is a subclass of [int]. *)
Definition num_value (v : PyVal) : option Q :=
  match v with
  | VInt n => Some (inject_Z n)
  | VFloat x => Some x
  | VBool b => Some (inject_Z (if b then 1 else 0))
  | _ => None
  end.

Inductive CmpOp : Type := OpGt | OpLt.

Definition op_symbol (op : CmpOp) : string :=
  match op with OpGt => ">" | OpLt => "<" end.

(** [v > lit] and [v < lit] for a numeric literal [lit] of type [lit_type]:
    numbers compare by value, anything else is a [TypeError]. *)
Definition py_compare (op : CmpOp) (v : PyVal) (lit : Q) (lit_type : string) : M bool :=
  match num_value v with
  | Some x =>
      mret (match op with
            | OpGt => negb (Qle_bool x lit)
            | OpLt => negb (Qle_bool lit x)
            end)
  | None =>
      raise (mkExc TypeError
               ("'" +:+ op_symbol op +:+ "' not supported between instances of '"
                +:+ type_name v +:+ "' and '" +:+ lit_type +:+ "'"))
  end.

(** [a or b] in a condition: [b] is evaluated only when [a] is false. *)
Definition py_or (a b : M bool) : M bool :=
  bind a (fun x : bool => if x then ret true else b).

(** ** More of the backup service
    (ai_api.py, lines 57-77, and capabilities/core_capabilities.py, lines 43-51) *)

Module BackupApi.

(** A sequence of [register_capability] calls, as
    [initialize_core_capabilities] makes them. *)
Fixpoint register_all (calls : list (string * Handler)) (self : Backup.CapabilityRegistry)
    (w : World) : Backup.CapabilityRegistry * World :=
  match calls with
  | [] => (self, w)
  | (name, handler) :: rest =>
      let (self', w') := Backup.register self name handler w in
      register_all rest self' w'
  end.

Record NegotiateRequest : Type := mkNegotiateRequest {
  capability : string;
  terms : PyDict
}.

(** What a call of [/negotiate] ends with: the response body, or an
    [HTTPException] with its status code and detail. *)
Inductive EndpointOutcome : Type :=
| Body (d : PyDict)
| HTTPError (status_code : Z) (detail : string).

Section Endpoint.

(** [str(HTTPException(status_code, detail))], which the web framework
    defines and which differs between its versions. *)
Variable http_exception_str : Z → PyVal → string.

(** [negotiate_endpoint].  The [HTTPException] raised in the [try] block for
    a response of status "error" is itself an [Exception]: it is caught by
    the last [except] clause and raised again with its [str] as detail. *)
Definition negotiate_endpoint (registry : Backup.CapabilityRegistry)
    (request : NegotiateRequest) (w : World) : EndpointOutcome * World :=
  match Backup.negotiate_core registry (capability request) (terms request) w with
  | (Returned response, w') =>
      let is_error :=
        match dict_lookup "status" response with
        | Some (VStr s) => String.eqb s "error"
        | _ => false
        end in
      if is_error then
        match dict_lookup "error" response with
        | Some detail => (HTTPError 500 (http_exception_str 500 detail), w')
        | None => (HTTPError 500 "'error'", w')        (* str(KeyError('error')) *)
        end
      else (Body response, w')
  | (Raised e, w') =>
      match exc_class e with
      | CapabilityError => (HTTPError 404 (exc_str e), w')
      | _ => (HTTPError 500 (exc_str e), w')
      end
  end.

End Endpoint.

(** [core_capabilities.handle_clinical_sepsis_risk], a plain function. *)
Definition handle_clinical_sepsis_risk (terms : PyDict) : M PyDict :=
  let vitals := dict_get terms "vitals" VNone in
  bind (if truthy vitals then
          bp ← py_get vitals "blood_pressure" VNone;
          py_compare OpLt bp (inject_Z 90) "int"
        else ret false)
       (fun low : bool =>
          let risk := (if low then 0.99 else 0.05)%float in
          ret [("risk_score", VFloat (Q_of_float risk));
               ("recommendation",
                VStr (if PrimFloat.ltb risk 0.5 then "LOW_RISK"
                      else "INITIATE_SEPSIS_PROTOCOL"))]).

End BackupApi.

(** ** The clinical and analytics handlers (ai_api.py, lines 218-343) *)

Module ML.

(** [MLInferenceService.predict_sepsis_risk] *)
Definition predict_sepsis_risk (vitals : PyVal) : M PyDict :=
  temp ← py_get vitals "temperature" (VFloat (Q_of_float 98.6));
  hr ← py_get vitals "heart_rate" (VInt 80);
  bp_sys ← py_get vitals "bp_systolic" (VInt 120);
  wbc ← py_get vitals "wbc_count" (VFloat (Q_of_float 7.5));
  let risk_score := 0.0%float in
  bind (py_or (py_compare OpGt temp (Q_of_float 100.4) "float")
              (py_compare OpLt temp (Q_of_float 96.8) "float"))
    (fun c1 : bool =>
  let risk_score := (if c1 then risk_score + 0.3 else risk_score)%float in
  bind (py_compare OpGt hr (inject_Z 90) "int")
    (fun c2 : bool =>
  let risk_score := (if c2 then risk_score + 0.2 else risk_score)%float in
  bind (py_compare OpLt bp_sys (inject_Z 100) "int")
    (fun c3 : bool =>
  let risk_score := (if c3 then risk_score + 0.3 else risk_score)%float in
  bind (py_or (py_compare OpGt wbc (inject_Z 12) "int")
              (py_compare OpLt wbc (inject_Z 4) "int"))
    (fun c4 : bool =>
  let risk_score := (if c4 then risk_score + 0.2 else risk_score)%float in
  let risk_level :=
    if PrimFloat.ltb 0.6 risk_score then "HIGH"
    else if PrimFloat.ltb 0.3 risk_score then "MEDIUM"
    else "LOW" in
  let recommendation :=
    if String.eqb risk_level "HIGH" then
      "INITIATE SEPSIS PROTOCOL - Alert physician immediately"
    else if String.eqb risk_level "MEDIUM" then
      "Increase monitoring frequency, consider blood cultures"
    else "Continue monitoring" in
  ret [("risk_score", VFloat (Q_of_float risk_score));
       ("risk_level", VStr risk_level);
       ("recommendation", VStr recommendation);
       ("confidence", VFloat (Q_of_float 0.85))])))).

(** [handle_clinical_sepsis_risk] *)
Definition handle_clinical_sepsis_risk (terms : PyDict) : M PyDict :=
  let vitals := dict_get terms "vitals" VNone in
  if negb (truthy vitals) then
    raise (mkExc ValueError "Missing 'vitals' in terms")
  else predict_sepsis_risk vitals.

(** [handle_analytics_readmission_risk] *)
Definition handle_analytics_readmission_risk (terms : PyDict) : M PyDict :=
  let patient_data := dict_get terms "patient_data" (VDict []) in
  let risk_factors : list PyVal := [] in
  let risk_score := 0.0%float in
  age ← py_get patient_data "age" (VInt 0);
  bind (py_compare OpGt age (inject_Z 65) "int")
    (fun c1 : bool =>
  let risk_score := (if c1 then risk_score + 0.3 else risk_score)%float in
  let risk_factors := if c1 then risk_factors ++ [VStr "Age > 65"] else risk_factors in
  chronic ← py_get patient_data "chronic_conditions" (VInt 0);
  bind (py_compare OpGt chronic (inject_Z 2) "int")
    (fun c2 : bool =>
  let risk_score := (if c2 then risk_score + 0.4 else risk_score)%float in
  let risk_factors :=
    if c2 then risk_factors ++ [VStr "Multiple chronic conditions"] else risk_factors in
  previous ← py_get patient_data "previous_admissions_30d" (VInt 0);
  bind (py_compare OpGt previous (inject_Z 0) "int")
    (fun c3 : bool =>
  let risk_score := (if c3 then risk_score + 0.3 else risk_score)%float in
  let risk_factors :=
    if c3 then risk_factors ++ [VStr "Recent admission"] else risk_factors in
  ret [("risk_score",
        VFloat (Q_of_float (if PrimFloat.ltb 1.0 risk_score then 1.0%float
                            else risk_score)));       (* min(risk_score, 1.0) *)
       ("risk_level",
        VStr (if PrimFloat.ltb 0.6 risk_score then "HIGH"
              else if PrimFloat.ltb 0.3 risk_score then "MEDIUM"
              else "LOW"));
       ("risk_factors", VList risk_factors);
       ("recommendation",
        VStr (if PrimFloat.ltb 0.6 risk_score then
                "Consider discharge planning intervention"
              else "Standard discharge protocol"))]))).

(** [needle in hay], for two [str]. *)
Fixpoint str_in (needle hay : string) : bool :=
  if String.prefix needle hay then true
  else match hay with
       | EmptyString => false
       | String _ rest => str_in needle rest
       end.

(** The table of [check_drug_interactions]. *)
Definition dangerous_combos : list (string * string * string) :=
  [("warfarin", "aspirin", "Increased bleeding risk");
   ("metformin", "iodinated_contrast", "Lactic acidosis risk");
   ("ssri", "tramadol", "Serotonin syndrome risk")].

(** The entry appended for a combination. *)
Definition interaction (combo : string * string * string) : PyVal :=
  match combo with
  | (d1, d2, warning) =>
      VDict [("drugs", VList [VStr d1; VStr d2]);
             ("severity", VStr "HIGH");
             ("warning", VStr warning)]
  end.

Section StrMethods.

(** [str.lower] and the iteration over the characters of a [str], which
    follow the Unicode tables of the interpreter. *)
Variable lower : string → string.
Variable chars : string → list string.

(** What a [for] loop over a value visits. *)
Definition py_iter (v : PyVal) : M (list PyVal) :=
  match v with
  | VList l => ret l
  | VStr s => ret (VStr <$> chars s)
  | VDict d => ret ((fun kv => VStr (fst kv)) <$> d)
  | _ => raise (mkExc TypeError ("'" +:+ type_name v +:+ "' object is not iterable"))
  end.

(** [m.lower()] *)
Definition py_lower (m : PyVal) : M string :=
  match m with
  | VStr s => ret (lower s)
  | _ => raise (mkExc AttributeError
                  ("'" +:+ type_name m +:+ "' object has no attribute 'lower'"))
  end.

(** [[m.lower() for m in ms]] *)
Fixpoint lower_all (ms : list PyVal) : M (list string) :=
  match ms with
  | [] => ret []
  | m :: rest =>
      bind (py_lower m) (fun s : string =>
      bind (lower_all rest) (fun ss : list string => ret (s :: ss)))
  end.

(** [MLInferenceService.check_drug_interactions] *)
Definition check_drug_interactions (medications : PyVal) : M PyDict :=
  bind (py_iter medications) (fun ms : list PyVal =>
  bind (lower_all ms) (fun med_names : list string =>
  let interactions :=
    interaction <$>
      List.filter
        (fun combo : string * string * string =>
           match combo with
           | (d1, d2, _) =>
               str_in d1 (String.concat " " med_names)
               && str_in d2 (String.concat " " med_names)
           end)
        dangerous_combos in
  ret [("has_interactions", VBool (Nat.ltb 0 (length interactions)));
       ("interactions", VList interactions);
       ("checked_medications", medications)])).

(** [handle_clinical_drug_interaction] *)
Definition handle_clinical_drug_interaction (terms : PyDict) : M PyDict :=
  let medications := dict_get terms "medications" VNone in
  if negb (truthy medications) then
    raise (mkExc ValueError "Missing 'medications' in terms")
  else check_drug_interactions medications.

End StrMethods.

End ML.

(** The four criteria of [predict_sepsis_risk], for a temperature [t], a
    heart rate [h], a systolic pressure [b] and a white cell count [c]. *)
Definition sepsis_criteria (t h b c : Q) : list bool :=
  [negb (Qle_bool t (Q_of_float 100.4)) || negb (Qle_bool (Q_of_float 96.8) t);
   negb (Qle_bool h (inject_Z 90));
   negb (Qle_bool (inject_Z 100) b);
   negb (Qle_bool c (inject_Z 12)) || negb (Qle_bool (inject_Z 4) c)].

Definition count_true (l : list bool) : nat := length (List.filter id l).

Definition level_of_count (n : nat) : string :=
  match n with
  | 0%nat | 1%nat => "LOW"
  | 2%nat => "MEDIUM"
  | _ => "HIGH"
  end.

(** No character of [s] is a space. *)
Fixpoint no_space (s : string) : bool :=
  match s with
  | EmptyString => true
  | String c rest => negb (Ascii.eqb c " "%char) && no_space rest
  end.

(** The dict that the backup's sepsis handler returns, by whether the
    pressure was found low. *)
Definition sepsis_answer (low : bool) : PyDict :=
  let risk := (if low then 0.99 else 0.05)%float in
  [("risk_score", VFloat (Q_of_float risk));
   ("recommendation",
    VStr (if PrimFloat.ltb risk 0.5 then "LOW_RISK" else "INITIATE_SEPSIS_PROTOCOL"))].

(** A backup registry holding the sepsis handler, as after
    [initialize_core_capabilities]. *)
Definition backup_demo_registry : Backup.CapabilityRegistry :=
  fst (BackupApi.register_all
         [("clinical:sepsis_risk", SyncFn BackupApi.handle_clinical_sepsis_risk)]
         Backup.registry_init quiet_world).

(** The number of WARNING records in a log. *)
Definition warnings (log : list (Level * LogMessage)) : nat :=
  length (List.filter (fun r => match fst r with WARNING => true | _ => false end) log).

(** * Properties *)

(** ** The registry *)

Module Registry.

Lemma init_consistent : consistent registry_init.
Proof. unfold consistent, registry_init. simpl. by rewrite !dom_empty_L. Qed.

Lemma register_handlers r name h p d w :
  handlers (fst (register r name h p d w)) = <[name := h]> (handlers r).
Proof. reflexivity. Qed.

Lemma register_metadata r name h p d w :
  metadata (fst (register r name h p d w))
  = <[name := mkMetadata (pillar_value p) d (now w)]> (metadata r).
Proof. reflexivity. Qed.

Lemma register_consistent r name h p d w :
  consistent r → consistent (fst (register r name h p d w)).
Proof.
  unfold consistent. intros Hr.
  rewrite register_handlers, register_metadata, !dom_insert_L.
  by rewrite Hr.
Qed.

Lemma register_all_consistent calls :
  ∀ r w, consistent r → consistent (fst (register_all calls r w)).
Proof.
  induction calls as [| [[[name h] p] d] rest IH]; intros r w Hr; simpl.
  - exact Hr.
  - apply IH. exact (register_consistent r name h p d w Hr).
Qed.

Lemma consistent_lookup r name :
  consistent r →
  is_Some (get_handler r name) ↔ name ∈ dom (list_capabilities r).
Proof.
  unfold consistent, get_handler, list_capabilities. intros Hr.
  rewrite <- Hr. symmetry. apply elem_of_dom.
Qed.

Lemma consistent_size r :
  consistent r → size (handlers r) = size (metadata r).
Proof.
  unfold consistent. intros Hr.
  rewrite <- (size_dom (handlers r)), <- (size_dom (metadata r)).
  by rewrite Hr.
Qed.

(** C10. After any sequence of [register] calls on a fresh registry the
    handlers map and the metadata map have the same key set; each
    [register] puts its name into both; [get_handler] answers for a name
    exactly when [list_capabilities] lists it; and the total reported by
    [GET /capabilities] is the number of metadata entries. *)
Theorem keys_agree (calls : list RegisterCall) (w : World) :
  let r := fst (register_all calls registry_init w) in
  dom (handlers r) = dom (metadata r)
  ∧ (∀ name h p d w',
        let r' := fst (register r name h p d w') in
        get_handler r' name = Some h
        ∧ is_Some (list_capabilities r' !! name)
        ∧ dom (handlers r') = dom (metadata r'))
  ∧ (∀ name, is_Some (get_handler r name) ↔ name ∈ dom (list_capabilities r))
  ∧ snd (list_capabilities_endpoint r) = size (fst (list_capabilities_endpoint r)).
Proof.
  intros r.
  assert (Hr : consistent r)
    by (apply register_all_consistent, init_consistent).
  split; [exact Hr |].
  split.
  - intros name h p d w' r'. split; [| split].
    + unfold get_handler, r'. rewrite register_handlers. apply lookup_insert_eq.
    + unfold list_capabilities, r'. rewrite register_metadata.
      rewrite lookup_insert_eq. by eexists.
    + exact (register_consistent r name h p d w' Hr).
  - split.
    + intros name. by apply consistent_lookup.
    + unfold list_capabilities_endpoint. simpl. by apply consistent_size.
Qed.

End Registry.

(** ** The audit logger *)

Module Audit.

Ltac run := unfold log_event, rpush_audit_log, setex, redis_command, utcnow, logger,
  mbind, M_bind, bind, mret, M_ret, ret, raise; simpl.

(** With a store that answers at once, [log_event] appends the event,
    indexes it and reports it. *)
Lemma log_event_quiet al et who res act dets w :
  redis_replies w = [] →
  ∃ w', log_event al et who res act dets w = (Returned tt, w')
      ∧ audit_log w' = audit_log w
          ++ [mkEvent (now w) et who res act (match dets with Some d => d | None => [] end)]
      ∧ now w' = now w
      ∧ redis_replies w' = [].
Proof.
  intros Hq. run. rewrite Hq. simpl. rewrite Hq. simpl.
  eexists. split; [reflexivity |]. simpl. auto.
Qed.

(** Whatever happens to the index write, an accepted push leaves exactly
    the new event at the end of the primary log. *)
Lemma log_event_accepted al et who res act dets w :
  store_accepts w = true →
  audit_log (snd (log_event al et who res act dets w))
  = audit_log w
      ++ [mkEvent (now w) et who res act (match dets with Some d => d | None => [] end)].
Proof.
  unfold store_accepts. run.
  destruct (redis_replies w) as [| r1 rest] eqn:Hr; simpl.
  - intros _. rewrite Hr. reflexivity.
  - destruct (failure r1) eqn:Hf; [discriminate |]. intros _. simpl.
    destruct rest as [| r2 rest']; simpl; [reflexivity |].
    destruct (failure r2); reflexivity.
Qed.

(** A refused push raises and leaves the primary log as it was. *)
Lemma log_event_refused al et who res act dets w :
  store_accepts w = false →
  ∃ msg w', log_event al et who res act dets w = (Raised (mkExc ConnectionError msg), w')
          ∧ audit_log w' = audit_log w.
Proof.
  unfold store_accepts. run.
  destruct (redis_replies w) as [| r1 rest] eqn:Hr; [discriminate |].
  destruct (failure r1) as [msg |] eqn:Hf; [| discriminate]. intros _.
  exists msg. eexists. split; reflexivity.
Qed.

(** [log_event] fails only through the store. *)
Lemma log_event_raises al et who res act dets w e w' :
  log_event al et who res act dets w = (Raised e, w') →
  exc_class e = ConnectionError.
Proof.
  run.
  destruct (redis_replies w) as [| r1 rest] eqn:Hr; simpl.
  - rewrite Hr. discriminate.
  - destruct (failure r1) eqn:Hf; simpl.
    + intros [= <- _]. reflexivity.
    + destruct rest as [| r2 rest']; simpl; [discriminate |].
      destruct (failure r2); simpl; [| discriminate].
      intros [= <- _]. reflexivity.
Qed.

End Audit.

(** ** The dispatcher *)

Module Dispatch.

Ltac step := unfold invoke_try, invoke_except, utcnow,
  mbind, M_bind, bind, mret, M_ret, ret, raise; simpl.

Section Registered.

Variables (registry : CapabilityRegistry) (request : CapabilityRequest) (w : World).
Variable handler : Handler.
Hypothesis Hreg : get_handler registry (capability request) = Some handler.

(** The handler raises: the [except] block answers. *)
Lemma handler_raises al e w1 :
  await_call handler (terms request) w = (Raised e, w1) →
  invoke_capability registry al request w
  = (Response (failure_response request w e w1), failure_world request e w1).
Proof.
  intros Hh. unfold invoke_capability. rewrite Hreg.
  step. rewrite Hh. reflexivity.
Qed.

(** The handler returns and no audit logger is set. *)
Lemma handler_returns_no_logger r w1 :
  await_call handler (terms request) w = (Returned r, w1) →
  invoke_capability registry None request w
  = (Response (mkResponse true (Some r) None (request_pillar request)
                 (total_seconds (now w1 - now w) * 1000)%Q (now w1)), w1).
Proof.
  intros Hh. unfold invoke_capability. rewrite Hreg.
  step. rewrite Hh. reflexivity.
Qed.

(** The handler returns and the audit write goes through. *)
Lemma handler_returns_audit_done al r w1 w2 :
  await_call handler (terms request) w = (Returned r, w1) →
  log_event al "CAPABILITY_INVOKE"
    (dict_get (context request) "user_id" (VStr "SYSTEM"))
    (capability request) "EXECUTE" (Some [("terms", VDict (terms request))]) w1
  = (Returned tt, w2) →
  invoke_capability registry (Some al) request w
  = (Response (mkResponse true (Some r) None (request_pillar request)
                 (total_seconds (now w2 - now w) * 1000)%Q (now w2)), w2).
Proof.
  intros Hh Hl. unfold invoke_capability. rewrite Hreg.
  step. rewrite Hh. simpl. rewrite Hl. reflexivity.
Qed.

(** The handler returns and the audit write raises: the same [except]
    block answers, with the audit's exception. *)
Lemma handler_returns_audit_raises al r w1 e w2 :
  await_call handler (terms request) w = (Returned r, w1) →
  log_event al "CAPABILITY_INVOKE"
    (dict_get (context request) "user_id" (VStr "SYSTEM"))
    (capability request) "EXECUTE" (Some [("terms", VDict (terms request))]) w1
  = (Raised e, w2) →
  invoke_capability registry (Some al) request w
  = (Response (failure_response request w e w2), failure_world request e w2).
Proof.
  intros Hh Hl. unfold invoke_capability. rewrite Hreg.
  step. rewrite Hh. simpl. rewrite Hl. reflexivity.
Qed.

(** A registered name always gets a response. *)
Lemma registered_gets_response al :
  ∃ response w', invoke_capability registry al request w = (Response response, w').
Proof.
  destruct (await_call handler (terms request) w) as [[r | e] w1] eqn:Hh.
  - destruct al as [al |].
    + destruct (log_event al "CAPABILITY_INVOKE"
                  (dict_get (context request) "user_id" (VStr "SYSTEM"))
                  (capability request) "EXECUTE"
                  (Some [("terms", VDict (terms request))]) w1) as [[[] | e] w2] eqn:Hl.
      * rewrite (handler_returns_audit_done al r w1 w2 Hh Hl). eauto.
      * rewrite (handler_returns_audit_raises al r w1 e w2 Hh Hl). eauto.
    + rewrite (handler_returns_no_logger r w1 Hh). eauto.
  - rewrite (handler_raises al e w1 Hh). eauto.
Qed.

(** The primary log after an invocation, given that the store accepts the
    push: the handler's log plus the dispatcher's event when the handler
    returned, the handler's log alone when it raised. *)
Lemma audit_log_after al :
  store_accepts (snd (await_call handler (terms request) w)) = true →
  let w1 := snd (await_call handler (terms request) w) in
  audit_log (snd (invoke_capability registry (Some al) request w))
  = match fst (await_call handler (terms request) w) with
    | Returned _ => audit_log w1 ++ [invoke_event request (now w1)]
    | Raised _ => audit_log w1
    end.
Proof.
  destruct (await_call handler (terms request) w) as [[r | e] w1] eqn:Hh; simpl.
  - intros Hacc.
    pose proof (Audit.log_event_accepted al "CAPABILITY_INVOKE"
                  (dict_get (context request) "user_id" (VStr "SYSTEM"))
                  (capability request) "EXECUTE"
                  (Some [("terms", VDict (terms request))]) w1 Hacc) as Hlog.
    destruct (log_event al "CAPABILITY_INVOKE"
                (dict_get (context request) "user_id" (VStr "SYSTEM"))
                (capability request) "EXECUTE"
                (Some [("terms", VDict (terms request))]) w1) as [[[] | e] w2] eqn:Hl.
    + rewrite (handler_returns_audit_done al r w1 w2 Hh Hl). exact Hlog.
    + rewrite (handler_returns_audit_raises al r w1 e w2 Hh Hl). exact Hlog.
  - intros _. rewrite (handler_raises (Some al) e w1 Hh). reflexivity.
Qed.

End Registered.

End Dispatch.

(** ** The invocation protocol against the specification *)

Module Invoke.

(** C1, as amended.  For a registered capability, with the audit logger set
    and a store that accepts the push, the primary log after the invocation
    is the log the handler left plus exactly one event (CAPABILITY_INVOKE,
    the capability name as resource, EXECUTE, the original terms in the
    details) when the handler returned, and the log the handler left,
    nothing added, when the handler raised. *)
Theorem audit_event_iff_handler_returns
    (registry : CapabilityRegistry) (al : AuditLogger) (request : CapabilityRequest)
    (w : World) (handler : Handler) :
  get_handler registry (capability request) = Some handler →
  store_accepts (snd (await_call handler (terms request) w)) = true →
  let w1 := snd (await_call handler (terms request) w) in
  audit_log (snd (invoke_capability registry (Some al) request w))
  = match fst (await_call handler (terms request) w) with
    | Returned _ =>
        audit_log w1
          ++ [mkEvent (now w1) "CAPABILITY_INVOKE"
                (dict_get (context request) "user_id" (VStr "SYSTEM"))
                (capability request) "EXECUTE" [("terms", VDict (terms request))]]
    | Raised _ => audit_log w1
    end.
Proof.
  intros Hreg Hacc. exact (Dispatch.audit_log_after registry request w handler Hreg al Hacc).
Qed.

Lemma audit_event_iff_handler_returns_witness :
  audit_log (snd (invoke_capability demo_registry (Some demo_logger) encrypt_request quiet_world))
  = [mkEvent 0 "CAPABILITY_INVOKE" (VStr "SYSTEM") "data:encrypt" "EXECUTE"
       [("terms", VDict [("plaintext", VStr "PHI-123")])]].
Proof.
  apply (audit_event_iff_handler_returns demo_registry demo_logger encrypt_request
           quiet_world (AsyncFn (handle_data_encrypt demo_service)));
    vm_compute; reflexivity.
Defined.

(** C1, as the specification words it, fails: [data:encrypt] without a
    plaintext is a registered capability whose handler raises, and the
    invocation leaves the primary log empty although the store is up. *)
Lemma audit_whatever_outcome_counterexample :
  ¬ spec_audit_whatever_outcome demo_registry demo_logger empty_encrypt_request quiet_world.
Proof.
  intros H.
  assert (Hg : get_handler demo_registry (capability empty_encrypt_request)
               = Some (AsyncFn (handle_data_encrypt demo_service)))
    by (vm_compute; reflexivity).
  destruct (H _ Hg) as (ev & Hlog & _).
  vm_compute in Hlog. discriminate Hlog.
Qed.

(** C2, as amended.  An unregistered name makes [invoke_capability] raise
    [HTTPException] with status 404 and the detail
    "Capability '<name>' not found"; no response envelope is built and the
    world, hence the audit log, is left as it was. *)
Theorem unknown_name_raises_404
    (registry : CapabilityRegistry) (al : option AuditLogger)
    (request : CapabilityRequest) (w : World) :
  get_handler registry (capability request) = None →
  invoke_capability registry al request w
  = (HTTPException 404 ("Capability '" +:+ capability request +:+ "' not found"), w)
  ∧ contains (capability request) ("Capability '" +:+ capability request +:+ "' not found").
Proof.
  intros Hnone. split.
  - unfold invoke_capability. rewrite Hnone. reflexivity.
  - exists "Capability '", "' not found". reflexivity.
Qed.

Lemma unknown_name_raises_404_witness :
  invoke_capability demo_registry (Some demo_logger) unknown_request quiet_world
  = (HTTPException 404 "Capability 'nope:nope' not found", quiet_world).
Proof.
  apply (unknown_name_raises_404 demo_registry (Some demo_logger) unknown_request quiet_world).
  vm_compute; reflexivity.
Defined.

(** C2, as the specification words it, fails: "nope:nope" is not
    registered, and the invocation yields no failure envelope and no
    EXECUTE_DENIED event. *)
Lemma unknown_name_result_counterexample :
  ¬ spec_unknown_name_result demo_registry demo_logger unknown_request quiet_world.
Proof.
  intros H.
  assert (Hg : get_handler demo_registry (capability unknown_request) = None)
    by (vm_compute; reflexivity).
  destruct (H Hg) as (response & w' & msg & ev & Hinv & _).
  vm_compute in Hinv. discriminate Hinv.
Qed.

(** C3, as amended.  When the handler returns and the audit write that
    follows raises, the exception is caught by the same [except] block and
    logged, and the response is a failure: success=false, no result, the
    audit exception's message as error. *)
Theorem audit_failure_fails_invocation
    (registry : CapabilityRegistry) (al : AuditLogger) (request : CapabilityRequest)
    (w : World) (handler : Handler) (r : PyDict) (w1 : World) (e : PyExc) (w2 : World) :
  get_handler registry (capability request) = Some handler →
  await_call handler (terms request) w = (Returned r, w1) →
  log_event al "CAPABILITY_INVOKE"
    (dict_get (context request) "user_id" (VStr "SYSTEM"))
    (capability request) "EXECUTE" (Some [("terms", VDict (terms request))]) w1
  = (Raised e, w2) →
  ∃ response w',
    invoke_capability registry (Some al) request w = (Response response, w')
    ∧ success response = false
    ∧ result response = None
    ∧ error response = Some (exc_str e)
    ∧ log_records w'
      = log_records w2 ++ [(ERROR, MsgExecutionFailed (capability request) (exc_str e))].
Proof.
  intros Hreg Hh Hl.
  rewrite (Dispatch.handler_returns_audit_raises registry request w handler Hreg al r w1 e w2 Hh Hl).
  do 2 eexists. split; [reflexivity |]. simpl. auto.
Qed.

Lemma audit_failure_fails_invocation_witness :
  ∃ response w',
    invoke_capability demo_registry (Some demo_logger) encrypt_request broken_store_world
    = (Response response, w')
    ∧ success response = false
    ∧ result response = None
    ∧ error response = Some "Error 111 connecting to vas-redis:6379. Connection refused."
    ∧ log_records w'
      = [(ERROR, MsgExecutionFailed "data:encrypt"
                   "Error 111 connecting to vas-redis:6379. Connection refused.")].
Proof.
  apply (audit_failure_fails_invocation demo_registry demo_logger encrypt_request
           broken_store_world (AsyncFn (handle_data_encrypt demo_service))
           [("ciphertext", VStr "gPHI-123")] broken_store_world
           (mkExc ConnectionError "Error 111 connecting to vas-redis:6379. Connection refused.")
           (set_redis_replies [] (set_now 150 broken_store_world)));
    vm_compute; reflexivity.
Defined.

(** C3, as the specification words it, fails: the handler of [data:encrypt]
    returns a ciphertext, the store refuses the audit write, and the
    response is a failure. *)
Lemma audit_best_effort_counterexample :
  ¬ spec_audit_best_effort demo_registry demo_logger encrypt_request broken_store_world.
Proof.
  intros H.
  assert (Hg : get_handler demo_registry (capability encrypt_request)
               = Some (AsyncFn (handle_data_encrypt demo_service)))
    by (vm_compute; reflexivity).
  assert (Hh : await_call (AsyncFn (handle_data_encrypt demo_service))
                 (terms encrypt_request) broken_store_world
               = (Returned [("ciphertext", VStr "gPHI-123")], broken_store_world))
    by (vm_compute; reflexivity).
  destruct (H _ _ _ Hg Hh) as (response & w' & Hinv & Hs & _).
  vm_compute in Hinv. injection Hinv as <- _.
  discriminate Hs.
Qed.

(** C4, as amended.  The time reported in a response is the wall-clock
    difference between the entry of [invoke_capability], before the registry
    lookup, and the moment the response is built, after the audit write on
    the success path; it is not the time of the handler alone.  The
    response's timestamp is that same final moment. *)
Theorem execution_time_spans_invocation
    (registry : CapabilityRegistry) (al : option AuditLogger)
    (request : CapabilityRequest) (w : World) (response : CapabilityResponse) (w' : World) :
  invoke_capability registry al request w = (Response response, w') →
  execution_time_ms response = (total_seconds (now w' - now w) * 1000)%Q
  ∧ timestamp response = now w'.
Proof.
  intros Hinv.
  destruct (get_handler registry (capability request)) as [handler |] eqn:Hreg.
  - destruct (await_call handler (terms request) w) as [[r | e] w1] eqn:Hh.
    + destruct al as [al |].
      * destruct (log_event al "CAPABILITY_INVOKE"
                    (dict_get (context request) "user_id" (VStr "SYSTEM"))
                    (capability request) "EXECUTE"
                    (Some [("terms", VDict (terms request))]) w1) as [[[] | e] w2] eqn:Hl.
        -- rewrite (Dispatch.handler_returns_audit_done
                      registry request w handler Hreg al r w1 w2 Hh Hl) in Hinv.
           injection Hinv as <- <-. split; reflexivity.
        -- rewrite (Dispatch.handler_returns_audit_raises
                      registry request w handler Hreg al r w1 e w2 Hh Hl) in Hinv.
           injection Hinv as <- <-. split; reflexivity.
      * rewrite (Dispatch.handler_returns_no_logger
                   registry request w handler Hreg r w1 Hh) in Hinv.
        injection Hinv as <- <-. split; reflexivity.
    + rewrite (Dispatch.handler_raises registry request w handler Hreg al e w1 Hh) in Hinv.
      injection Hinv as <- <-. split; reflexivity.
  - unfold invoke_capability in Hinv. rewrite Hreg in Hinv. discriminate Hinv.
Qed.

Lemma execution_time_spans_invocation_witness :
  let response :=
    mkResponse true (Some [("ciphertext", VStr "gPHI-123")]) None (Some ENCRYPT)
      (total_seconds 5000 * 1000)%Q 5000 in
  let w' :=
    snd (invoke_capability demo_registry (Some demo_logger) encrypt_request slow_store_world) in
  execution_time_ms response = (total_seconds (now w' - now slow_store_world) * 1000)%Q
  ∧ timestamp response = now w'.
Proof.
  apply (execution_time_spans_invocation demo_registry (Some demo_logger) encrypt_request
           slow_store_world).
  vm_compute; reflexivity.
Defined.

(** C4, as the specification words it, fails: the handler of
    [data:encrypt] takes no time on the model's clock, the two store
    commands of the audit write take 2 ms and 3 ms, and the response
    reports 5 ms. *)
Lemma time_of_handler_only_counterexample :
  ¬ spec_time_of_handler_only demo_registry (Some demo_logger) encrypt_request slow_store_world.
Proof.
  intros H.
  assert (Hg : get_handler demo_registry (capability encrypt_request)
               = Some (AsyncFn (handle_data_encrypt demo_service)))
    by (vm_compute; reflexivity).
  destruct (invoke_capability demo_registry (Some demo_logger) encrypt_request slow_store_world)
    as [[response | code detail] w'] eqn:Hout;
    [| vm_compute in Hout; discriminate Hout].
  specialize (H _ response w' Hg Hout).
  vm_compute in Hout. injection Hout as <- _.
  vm_compute in H. discriminate H.
Qed.

(** C5.  When the handler of a registered capability raises, whether it is
    a coroutine function or a plain one, [invoke_capability] does not raise:
    it returns a response with success=false, no result, the exception's
    message as error and the request's pillar, and it logs the failure. *)
Theorem handler_failure_contained
    (registry : CapabilityRegistry) (al : option AuditLogger)
    (request : CapabilityRequest) (w : World) (handler : Handler) (e : PyExc) (w1 : World) :
  get_handler registry (capability request) = Some handler →
  handler_body handler (terms request) w = (Raised e, w1) →
  ∃ response w',
    invoke_capability registry al request w = (Response response, w')
    ∧ success response = false
    ∧ result response = None
    ∧ error response = Some (exc_str e)
    ∧ pillar response = request_pillar request
    ∧ log_records w'
      = log_records w1 ++ [(ERROR, MsgExecutionFailed (capability request) (exc_str e))].
Proof.
  intros Hreg Hbody.
  assert (Hh : await_call handler (terms request) w = (Raised e, w1)).
  { destruct handler as [body | body]; simpl in *.
    - exact Hbody.
    - unfold mbind, M_bind, bind. rewrite Hbody. reflexivity. }
  rewrite (Dispatch.handler_raises registry request w handler Hreg al e w1 Hh).
  do 2 eexists. split; [reflexivity |]. simpl. auto 6.
Qed.

Lemma handler_failure_contained_witness :
  ∃ response w',
    invoke_capability demo_registry (Some demo_logger) empty_encrypt_request quiet_world
    = (Response response, w')
    ∧ success response = false
    ∧ result response = None
    ∧ error response = Some "Missing 'plaintext' in terms"
    ∧ pillar response = None
    ∧ log_records w'
      = [(ERROR, MsgExecutionFailed "data:encrypt" "Missing 'plaintext' in terms")].
Proof.
  apply (handler_failure_contained demo_registry (Some demo_logger) empty_encrypt_request
           quiet_world (AsyncFn (handle_data_encrypt demo_service))
           (mkExc ValueError "Missing 'plaintext' in terms") quiet_world);
    vm_compute; reflexivity.
Defined.

(** C8 on [invoke_capability].  A registered plain function that returns a
    dict is called, its dict is handed to [await], the [TypeError] of that
    is caught, and the response is a failure that carries no result. *)
Theorem sync_handler_not_awaitable
    (registry : CapabilityRegistry) (al : option AuditLogger)
    (request : CapabilityRequest) (w : World) (body : HandlerBody) (r : PyDict) (w1 : World) :
  get_handler registry (capability request) = Some (SyncFn body) →
  body (terms request) w = (Returned r, w1) →
  ∃ response w',
    invoke_capability registry al request w = (Response response, w')
    ∧ success response = false
    ∧ result response = None
    ∧ error response = Some "object dict can't be used in 'await' expression".
Proof.
  intros Hreg Hbody.
  assert (Hh : await_call (SyncFn body) (terms request) w
               = (Raised (mkExc TypeError "object dict can't be used in 'await' expression"),
                  w1)).
  { simpl. unfold mbind, M_bind, bind. rewrite Hbody. reflexivity. }
  rewrite (Dispatch.handler_raises registry request w (SyncFn body) Hreg al _ w1 Hh).
  do 2 eexists. split; [reflexivity |]. simpl. auto.
Qed.

Lemma sync_handler_not_awaitable_witness :
  ∃ response w',
    invoke_capability ping_registry None ping_request quiet_world = (Response response, w')
    ∧ success response = false
    ∧ result response = None
    ∧ error response = Some "object dict can't be used in 'await' expression".
Proof.
  apply (sync_handler_not_awaitable ping_registry None ping_request quiet_world
           ping [("pong", VBool true)] quiet_world);
    vm_compute; reflexivity.
Defined.

(** The specification's wording of C8 fails on [invoke_capability] for the
    plain function [ping]. *)
Lemma sync_handler_served_counterexample :
  ¬ spec_sync_handler_served ping_registry None ping_request quiet_world.
Proof.
  intros H.
  assert (Hg : get_handler ping_registry (capability ping_request) = Some (SyncFn ping))
    by (vm_compute; reflexivity).
  destruct (H ping [("pong", VBool true)] quiet_world Hg eq_refl)
    as (response & w' & Hinv & Hs & _).
  vm_compute in Hinv. injection Hinv as <- _.
  discriminate Hs.
Qed.

(** The dispatcher of the backup service does serve both kinds alike: with
    the same body, a plain function and a coroutine function give the same
    answer, and a body that returns [r] gives status "ok" with result [r]. *)
Lemma backup_serves_both_kinds (body : HandlerBody) (name : string) (terms : PyDict)
    (w : World) (r : PyDict) (w1 : World) (rs ra : Backup.CapabilityRegistry) :
  Backup.get rs name = Some (SyncFn body) →
  Backup.get ra name = Some (AsyncFn body) →
  body terms w = (Returned r, w1) →
  Backup.negotiate_core rs name terms w = Backup.negotiate_core ra name terms w
  ∧ Backup.negotiate_core rs name terms w
    = (Returned [("status", VStr "ok"); ("capability", VStr name); ("result", VDict r)], w1).
Proof.
  intros Hs Ha Hbody. unfold Backup.negotiate_core. rewrite Hs, Ha.
  unfold Backup.negotiate_try, mbind, M_bind, bind, mret, M_ret, ret.
  rewrite Hbody. split; reflexivity.
Qed.

(** C9, as amended.  When the handler returns and the store accepts the
    push, the event appended by the dispatcher has as actor the value under
    the key [user_id] of the request's context when that key is present, and
    "SYSTEM" when it is absent; the key [actor] is not read. *)
Theorem audit_actor_is_user_id
    (registry : CapabilityRegistry) (al : AuditLogger) (request : CapabilityRequest)
    (w : World) (handler : Handler) (r : PyDict) (w1 : World) :
  get_handler registry (capability request) = Some handler →
  await_call handler (terms request) w = (Returned r, w1) →
  store_accepts w1 = true →
  ∃ ev,
    audit_log (snd (invoke_capability registry (Some al) request w)) = audit_log w1 ++ [ev]
    ∧ actor ev = match dict_lookup "user_id" (context request) with
                 | Some v => v
                 | None => VStr "SYSTEM"
                 end.
Proof.
  intros Hreg Hh Hacc.
  pose proof (Dispatch.audit_log_after registry request w handler Hreg al) as Hlog.
  rewrite Hh in Hlog. simpl in Hlog.
  exists (invoke_event request (now w1)). split.
  - exact (Hlog Hacc).
  - reflexivity.
Qed.

Lemma audit_actor_is_user_id_witness :
  ∃ ev,
    audit_log (snd (invoke_capability demo_registry (Some demo_logger)
                      (mkRequest "data:encrypt" [("plaintext", VStr "PHI-123")]
                         [("user_id", VStr "dr-lee")] None) quiet_world))
    = [] ++ [ev]
    ∧ actor ev = VStr "dr-lee".
Proof.
  apply (audit_actor_is_user_id demo_registry demo_logger
           (mkRequest "data:encrypt" [("plaintext", VStr "PHI-123")]
              [("user_id", VStr "dr-lee")] None)
           quiet_world (AsyncFn (handle_data_encrypt demo_service))
           [("ciphertext", VStr "gPHI-123")] quiet_world);
    vm_compute; reflexivity.
Defined.

(** C9, as the specification words it, fails: the context names the actor
    "alice" under the key [actor], and the event's actor is "SYSTEM". *)
Lemma actor_from_actor_key_counterexample :
  ¬ spec_actor_from_actor_key demo_registry demo_logger encrypt_request quiet_world.
Proof.
  intros H.
  specialize (H (mkEvent 0 "CAPABILITY_INVOKE" (VStr "SYSTEM") "data:encrypt" "EXECUTE"
                   [("terms", VDict [("plaintext", VStr "PHI-123")])])).
  assert (Hlast : last (audit_log (snd (invoke_capability demo_registry (Some demo_logger)
                                          encrypt_request quiet_world)))
                  = Some (mkEvent 0 "CAPABILITY_INVOKE" (VStr "SYSTEM") "data:encrypt" "EXECUTE"
                            [("terms", VDict [("plaintext", VStr "PHI-123")])]))
    by (vm_compute; reflexivity).
  specialize (H Hlast). vm_compute in H. discriminate H.
Qed.

End Invoke.

(** ** The encryption capabilities *)

Module Encryption.

Lemma marker_cipher_contract : FernetContract (cipher demo_service).
Proof. split; intros t iv data; simpl; [reflexivity | discriminate]. Qed.

Lemma decode_encode (s : string) : bytes_decode (str_encode s) = s.
Proof. apply string_of_list_byte_of_string. Qed.

Lemma encode_decode (b : bytes) : str_encode (bytes_decode b) = b.
Proof. apply list_byte_of_string_of_list_byte. Qed.

Lemma decode_nonempty (b : bytes) : b ≠ [] → bytes_decode b ≠ "".
Proof.
  intros Hb Hs. apply Hb.
  rewrite <- (encode_decode b), Hs. reflexivity.
Qed.

Lemma truthy_str (s : string) : s ≠ "" → truthy (VStr s) = true.
Proof.
  intros Hs. simpl. apply negb_true_iff. by apply String.eqb_neq.
Qed.

Section Cipher.

Variable svc : EncryptionService.
Hypothesis contract : FernetContract (cipher svc).

Lemma encrypt_str x w :
  encrypt svc (VStr x) w
  = (Returned (token_of svc x w), set_entropy (drop 16%nat (entropy w)) w).
Proof. reflexivity. Qed.

Lemma token_nonempty x w : token_of svc x w ≠ "".
Proof. apply decode_nonempty, (fernet_token_nonempty _ contract). Qed.

Lemma decrypt_token x w w2 :
  decrypt svc (VStr (token_of svc x w)) w2 = (Returned x, w2).
Proof.
  unfold decrypt, token_of. rewrite encode_decode.
  rewrite (fernet_round_trip _ contract). unfold mret, M_ret, ret.
  by rewrite decode_encode.
Qed.

Lemma handle_data_encrypt_str terms x w :
  dict_lookup "plaintext" terms = Some (VStr x) →
  x ≠ "" →
  handle_data_encrypt svc terms w
  = (Returned [("ciphertext", VStr (token_of svc x w))],
     set_entropy (drop 16%nat (entropy w)) w).
Proof.
  intros Hget Hx. unfold handle_data_encrypt, dict_get. rewrite Hget.
  rewrite (truthy_str x Hx). simpl. reflexivity.
Qed.

Lemma handle_data_decrypt_token terms x w w2 :
  dict_lookup "ciphertext" terms = Some (VStr (token_of svc x w)) →
  handle_data_decrypt svc terms w2 = (Returned [("plaintext", VStr x)], w2).
Proof.
  intros Hget. unfold handle_data_decrypt, dict_get. rewrite Hget.
  rewrite (truthy_str _ (token_nonempty x w)). cbn [negb].
  unfold mbind, M_bind, bind. rewrite decrypt_token. reflexivity.
Qed.


(** The empty plaintext, or none, is rejected by [data:encrypt]. *)
Lemma empty_plaintext_rejected terms w :
  truthy (dict_get terms "plaintext" VNone) = false →
  handle_data_encrypt svc terms w
  = (Raised (mkExc ValueError "Missing 'plaintext' in terms"), w).
Proof.
  intros Hf. unfold handle_data_encrypt. rewrite Hf. reflexivity.
Qed.

(** A ciphertext that the cipher object refuses makes [data:decrypt] raise
    [InvalidToken]; no plaintext is returned. *)
Lemma refused_token_raises terms c w :
  dict_lookup "ciphertext" terms = Some (VStr c) →
  c ≠ "" →
  fernet_decrypt (cipher svc) (str_encode c) = None →
  handle_data_decrypt svc terms w = (Raised (mkExc InvalidToken ""), w).
Proof.
  intros Hget Hc Hnone. unfold handle_data_decrypt, dict_get. rewrite Hget.
  rewrite (truthy_str c Hc). cbn [negb].
  unfold mbind, M_bind, bind, decrypt. rewrite Hnone. reflexivity.
Qed.

(** The round trip through [invoke_capability], when the store answers the
    audit writes. *)
Lemma round_trip_through_gateway
    (registry : CapabilityRegistry) (al : option AuditLogger) (x : string)
    (ctx ctx' : PyDict) (p p' : option ZFPPillar) (w : World) :
  get_handler registry "data:encrypt" = Some (AsyncFn (handle_data_encrypt svc)) →
  get_handler registry "data:decrypt" = Some (AsyncFn (handle_data_decrypt svc)) →
  redis_replies w = [] →
  x ≠ "" →
  ∃ c r1 w1 r2 w2,
    invoke_capability registry al (mkRequest "data:encrypt" [("plaintext", VStr x)] ctx p) w
    = (Response r1, w1)
    ∧ success r1 = true
    ∧ result r1 = Some [("ciphertext", VStr c)]
    ∧ invoke_capability registry al (mkRequest "data:decrypt" [("ciphertext", VStr c)] ctx' p') w1
      = (Response r2, w2)
    ∧ success r2 = true
    ∧ result r2 = Some [("plaintext", VStr x)].
Proof.
  intros He Hd Hq Hx.
  set (req1 := mkRequest "data:encrypt" [("plaintext", VStr x)] ctx p).
  set (w1 := set_entropy (drop 16%nat (entropy w)) w).
  assert (Hh1 : await_call (AsyncFn (handle_data_encrypt svc)) (terms req1) w
                = (Returned [("ciphertext", VStr (token_of svc x w))], w1))
    by (simpl; by apply handle_data_encrypt_str).
  set (req2 := mkRequest "data:decrypt" [("ciphertext", VStr (token_of svc x w))] ctx' p').
  assert (Hh2 : ∀ w2, await_call (AsyncFn (handle_data_decrypt svc)) (terms req2) w2
                      = (Returned [("plaintext", VStr x)], w2))
    by (intros w2; simpl; by apply (handle_data_decrypt_token _ x w w2)).
  exists (token_of svc x w).
  destruct al as [al |].
  - destruct (Audit.log_event_quiet al "CAPABILITY_INVOKE"
                (dict_get (context req1) "user_id" (VStr "SYSTEM"))
                (capability req1) "EXECUTE" (Some [("terms", VDict (terms req1))]) w1 Hq)
      as (w1' & Hl1 & _ & _ & Hq1).
    destruct (Audit.log_event_quiet al "CAPABILITY_INVOKE"
                (dict_get (context req2) "user_id" (VStr "SYSTEM"))
                (capability req2) "EXECUTE" (Some [("terms", VDict (terms req2))]) w1' Hq1)
      as (w2' & Hl2 & _).
    pose proof (Dispatch.handler_returns_audit_done
                  registry req1 w _ He al _ w1 w1' Hh1 Hl1) as E1.
    pose proof (Dispatch.handler_returns_audit_done
                  registry req2 w1' _ Hd al _ w1' w2' (Hh2 w1') Hl2) as E2.
    eexists _, w1', _, w2'.
    split; [exact E1 |]. split; [reflexivity |]. split; [reflexivity |].
    split; [exact E2 |]. split; reflexivity.
  - pose proof (Dispatch.handler_returns_no_logger registry req1 w _ He _ w1 Hh1) as E1.
    pose proof (Dispatch.handler_returns_no_logger registry req2 w1 _ Hd _ w1 (Hh2 w1)) as E2.
    eexists _, w1, _, w1.
    split; [exact E1 |]. split; [reflexivity |]. split; [reflexivity |].
    split; [exact E2 |]. split; reflexivity.
Qed.

End Cipher.


End Encryption.

(** * Further properties of the code *)

(** ** Registration *)

Module Registration.

Lemma register_lookup r name h p d w name' :
  get_handler (fst (register r name h p d w)) name'
  = if String.eqb name name' then Some h else get_handler r name'.
Proof.
  unfold get_handler. rewrite Registry.register_handlers.
  destruct (String.eqb_spec name name') as [-> | Hne].
  - apply lookup_insert_eq.
  - by apply lookup_insert_ne.
Qed.

Lemma register_all_cons n h p d rest r w :
  register_all ((n, h, p, d) :: rest) r w
  = register_all rest (fst (register r n h p d w)) (snd (register r n h p d w)).
Proof. reflexivity. Qed.

(** Last writer wins.  After a sequence of [register] calls, [get_handler]
    gives for a name the handler of the last call that registered it, and
    what the registry held before when no call did. *)
Theorem last_registration_wins (calls : list RegisterCall) (r : CapabilityRegistry)
    (w : World) (name : string) :
  get_handler (fst (register_all calls r w)) name
  = match last_registration name calls with
    | Some h => Some h
    | None => get_handler r name
    end.
Proof.
  revert r w. induction calls as [| [[[n h] p] d] rest IH]; intros r w.
  - reflexivity.
  - rewrite register_all_cons, IH. cbn [last_registration].
    destruct (last_registration name rest); [reflexivity |].
    rewrite register_lookup. by destruct (String.eqb n name).
Qed.

Lemma register_all_dom calls :
  ∀ r w, dom (handlers (fst (register_all calls r w)))
         = list_to_set (call_name <$> calls) ∪ dom (handlers r).
Proof.
  induction calls as [| [[[n h] p] d] rest IH]; intros r w.
  - simpl. by rewrite (left_id_L ∅ (∪)).
  - rewrite register_all_cons, IH, Registry.register_handlers, dom_insert_L.
    rewrite fmap_cons, list_to_set_cons. cbn [call_name].
    rewrite (assoc_L (∪)). f_equal. apply (comm_L (∪)).
Qed.

(** The names served after a sequence of [register] calls on a fresh
    registry are the names of the calls, and the total that
    [GET /capabilities] reports is the number of distinct names among them,
    not the number of calls. *)
Theorem total_counts_distinct_names (calls : list RegisterCall) (w : World) :
  let r := fst (register_all calls registry_init w) in
  (∀ name, is_Some (get_handler r name) ↔ name ∈ call_name <$> calls)
  ∧ snd (list_capabilities_endpoint r) = length (remove_dups (call_name <$> calls)).
Proof.
  intros r.
  assert (Hdom : dom (handlers r) = list_to_set (call_name <$> calls)).
  { unfold r. rewrite register_all_dom. simpl.
    by rewrite dom_empty_L, (right_id_L ∅ (∪)). }
  split.
  - intros name. unfold get_handler. rewrite <- elem_of_dom, Hdom.
    apply elem_of_list_to_set.
  - unfold list_capabilities_endpoint. simpl.
    rewrite <- (size_dom (handlers r)), Hdom.
    rewrite <- (size_list_to_set (C := gset string) (remove_dups (call_name <$> calls)))
      by apply NoDup_remove_dups.
    f_equal. apply set_eq. intros x.
    rewrite !elem_of_list_to_set, elem_of_remove_dups. reflexivity.
Qed.

(** One [register] call replaces or adds its own name and nothing else:
    every other name keeps its handler and its metadata, and the number of
    handlers grows by one exactly when the name was not registered. *)
Theorem register_touches_one_name (r : CapabilityRegistry) (name : string) (h : Handler)
    (p : ZFPPillar) (d : string) (w : World) :
  let r' := fst (register r name h p d w) in
  (∀ other, other ≠ name →
      get_handler r' other = get_handler r other
      ∧ list_capabilities r' !! other = list_capabilities r !! other)
  ∧ size (handlers r')
    = match get_handler r name with
      | Some _ => size (handlers r)
      | None => S (size (handlers r))
      end.
Proof.
  intros r'. split.
  - intros other Hne. unfold get_handler, list_capabilities, r'.
    rewrite Registry.register_handlers, Registry.register_metadata.
    by rewrite !lookup_insert_ne.
  - unfold r', get_handler. rewrite Registry.register_handlers, map_size_insert.
    destruct (handlers r !! name); reflexivity.
Qed.

(** Every [register] call of a sequence is reported to the logger once, in
    the order of the calls, with the name and the pillar's value; nothing
    else of the world changes. *)
Theorem registrations_logged (calls : list RegisterCall) (r : CapabilityRegistry)
    (w : World) :
  snd (register_all calls r w)
  = set_log_records (log_records w ++ (registration_record <$> calls)) w.
Proof.
  revert r w. induction calls as [| [[[n h] p] d] rest IH]; intros r w.
  - simpl. rewrite app_nil_r. by destruct w.
  - rewrite register_all_cons, IH. unfold register, set_log_records; simpl.
    by rewrite <- app_assoc.
Qed.

End Registration.

(** ** The audit trail *)

Module AuditTrail.

Ltac run := unfold log_event, rpush_audit_log, setex, redis_command, utcnow, logger,
  mbind, M_bind, bind, mret, M_ret, ret, raise; simpl.

Lemma grows_by_at_most_one al et who res act dets w :
  audit_log (snd (log_event al et who res act dets w)) = audit_log w
  ∨ audit_log (snd (log_event al et who res act dets w))
    = audit_log w ++ [event_of (now w) et who res act dets].
Proof.
  destruct (store_accepts w) eqn:Hacc.
  - right. exact (Audit.log_event_accepted al et who res act dets w Hacc).
  - left. destruct (Audit.log_event_refused al et who res act dets w Hacc)
      as (msg & w' & Hl & Hlog).
    rewrite Hl. exact Hlog.
Qed.

(** The primary log is append-only under [log_event]: whatever the store
    answers, the entries it held are still there, in place, and at most the
    one new event follows them; when [log_event] returns, the event is
    there. *)
Theorem primary_log_append_only (al : AuditLogger) (et : string) (who : PyVal)
    (res act : string) (dets : option PyDict) (w : World) :
  let out := log_event al et who res act dets w in
  ∃ added,
    audit_log (snd out) = audit_log w ++ added
    ∧ (length added ≤ 1)%nat
    ∧ (fst out = Returned tt → added = [event_of (now w) et who res act dets]).
Proof.
  intros out.
  destruct (store_accepts w) eqn:Hacc.
  - exists [event_of (now w) et who res act dets]. split; [| split].
    + exact (Audit.log_event_accepted al et who res act dets w Hacc).
    + simpl. lia.
    + reflexivity.
  - destruct (Audit.log_event_refused al et who res act dets w Hacc)
      as (msg & w' & Hl & Hlog).
    exists []. unfold out. rewrite Hl. simpl. split; [| split].
    + by rewrite app_nil_r.
    + lia.
    + discriminate.
Qed.

(** The two writes of [log_event] are not coupled.  When the store takes
    the push and refuses the indexed copy, [log_event] raises the store's
    error although the event is already in the primary log; the index is
    as it was and no AUDIT record is logged. *)
Theorem half_written_event (al : AuditLogger) (et : string) (who : PyVal)
    (res act : string) (dets : option PyDict) (w : World)
    (r1 r2 : RedisReply) (rest : list RedisReply) (msg : string) :
  redis_replies w = r1 :: r2 :: rest →
  failure r1 = None →
  failure r2 = Some msg →
  ∃ w',
    log_event al et who res act dets w = (Raised (mkExc ConnectionError msg), w')
    ∧ audit_log w' = audit_log w ++ [event_of (now w) et who res act dets]
    ∧ audit_index w' = audit_index w
    ∧ log_records w' = log_records w.
Proof.
  intros Hr Hf1 Hf2. run. rewrite Hr. simpl. rewrite Hf1. simpl. rewrite Hf2.
  eexists. split; [reflexivity |]. simpl. auto.
Qed.

Lemma half_written_event_witness :
  ∃ w',
    log_event demo_logger "CAPABILITY_INVOKE" (VStr "dr-lee") "data:encrypt" "EXECUTE" None
      (set_redis_replies [mkReply 2000 None; mkReply 3000 (Some "Connection reset by peer")]
         quiet_world)
    = (Raised (mkExc ConnectionError "Connection reset by peer"), w')
    ∧ audit_log w'
      = [] ++ [event_of 0 "CAPABILITY_INVOKE" (VStr "dr-lee") "data:encrypt" "EXECUTE" None]
    ∧ audit_index w' = ∅
    ∧ log_records w' = [].
Proof.
  apply (half_written_event demo_logger "CAPABILITY_INVOKE" (VStr "dr-lee") "data:encrypt"
           "EXECUTE" None
           (set_redis_replies [mkReply 2000 None; mkReply 3000 (Some "Connection reset by peer")]
              quiet_world)
           (mkReply 2000 None) (mkReply 3000 (Some "Connection reset by peer")) []);
    reflexivity.
Defined.

(** When [log_event] returns, both writes were made: the event ends the
    primary log, the index holds the same event under a key of its type
    with a time to live of 30 days (2592000 seconds), and one AUDIT record
    was logged at level INFO. *)
Theorem returned_means_written (al : AuditLogger) (et : string) (who : PyVal)
    (res act : string) (dets : option PyDict) (w w' : World) :
  log_event al et who res act dets w = (Returned tt, w') →
  let ev := event_of (now w) et who res act dets in
  audit_log w' = audit_log w ++ [ev]
  ∧ (∃ t, audit_index w' !! (et, t) = Some (30 * 24 * 3600, ev))
  ∧ log_records w' = log_records w ++ [(INFO, MsgAudit et who res act)].
Proof.
  run.
  destruct (redis_replies w) as [| r1 rest] eqn:Hr; simpl.
  - rewrite Hr. intros [= <-]. simpl.
    split; [reflexivity |].
    split; [| reflexivity]. eexists. apply lookup_insert_eq.
  - destruct (failure r1) eqn:Hf1; simpl; [discriminate |].
    destruct rest as [| r2 rest']; simpl.
    + intros [= <-]. simpl.
      split; [reflexivity |].
      split; [| reflexivity]. eexists. apply lookup_insert_eq.
    + destruct (failure r2) eqn:Hf2; simpl; [discriminate |].
      intros [= <-]. simpl.
      split; [reflexivity |].
      split; [| reflexivity]. eexists. apply lookup_insert_eq.
Qed.

Lemma returned_means_written_witness :
  let w' := snd (log_event demo_logger "CAPABILITY_INVOKE" (VStr "dr-lee") "data:encrypt"
                   "EXECUTE" None slow_store_world) in
  let ev := event_of (now slow_store_world) "CAPABILITY_INVOKE" (VStr "dr-lee")
              "data:encrypt" "EXECUTE" None in
  audit_log w' = audit_log slow_store_world ++ [ev]
  ∧ (∃ t, audit_index w' !! ("CAPABILITY_INVOKE", t) = Some (30 * 24 * 3600, ev))
  ∧ log_records w'
    = log_records slow_store_world
        ++ [(INFO, MsgAudit "CAPABILITY_INVOKE" (VStr "dr-lee") "data:encrypt" "EXECUTE")].
Proof.
  apply (returned_means_written demo_logger "CAPABILITY_INVOKE" (VStr "dr-lee")
           "data:encrypt" "EXECUTE" None slow_store_world).
  vm_compute; reflexivity.
Defined.

End AuditTrail.

(** ** The response envelope *)

Module Envelope.

Lemma response_cases (registry : CapabilityRegistry) (al : option AuditLogger)
    (request : CapabilityRequest) (w : World) (response : CapabilityResponse) (w' : World) :
  invoke_capability registry al request w = (Response response, w') →
  (∃ r t, response = mkResponse true (Some r) None (request_pillar request)
                       (total_seconds (t - now w) * 1000)%Q t)
  ∨ (∃ e t, response = mkResponse false None (Some (exc_str e)) (request_pillar request)
                         (total_seconds (t - now w) * 1000)%Q t).
Proof.
  intros Hinv.
  destruct (get_handler registry (capability request)) as [handler |] eqn:Hreg.
  - destruct (await_call handler (terms request) w) as [[r | e] w1] eqn:Hh.
    + destruct al as [al |].
      * destruct (log_event al "CAPABILITY_INVOKE"
                    (dict_get (context request) "user_id" (VStr "SYSTEM"))
                    (capability request) "EXECUTE"
                    (Some [("terms", VDict (terms request))]) w1) as [[[] | e] w2] eqn:Hl.
        -- rewrite (Dispatch.handler_returns_audit_done
                      registry request w handler Hreg al r w1 w2 Hh Hl) in Hinv.
           injection Hinv as <- _. left. eauto.
        -- rewrite (Dispatch.handler_returns_audit_raises
                      registry request w handler Hreg al r w1 e w2 Hh Hl) in Hinv.
           injection Hinv as <- _. right. exists e, (now w2). reflexivity.
      * rewrite (Dispatch.handler_returns_no_logger
                   registry request w handler Hreg r w1 Hh) in Hinv.
        injection Hinv as <- _. left. eauto.
    + rewrite (Dispatch.handler_raises registry request w handler Hreg al e w1 Hh) in Hinv.
      injection Hinv as <- _. right. exists e, (now w1). reflexivity.
  - unfold invoke_capability in Hinv. rewrite Hreg in Hinv. discriminate Hinv.
Qed.



(** The pillar of a response is the pillar the request carried, success or
    failure; the pillar under which the capability was registered plays no
    part. *)
Theorem pillar_echoes_request (registry : CapabilityRegistry) (al : option AuditLogger)
    (request : CapabilityRequest) (w : World) (response : CapabilityResponse) (w' : World) :
  invoke_capability registry al request w = (Response response, w') →
  pillar response = request_pillar request.
Proof.
  intros Hinv.
  destruct (response_cases registry al request w response w' Hinv)
    as [(r & t & ->) | (e & t & ->)]; reflexivity.
Qed.

Lemma pillar_echoes_request_witness :
  list_capabilities demo_registry !! "data:encrypt"
  = Some (mkMetadata "encrypt" "Encrypt sensitive PHI data" 0)
  ∧ pillar (mkResponse true (Some [("ciphertext", VStr "gPHI-123")]) None (Some OBSERVE)
              (total_seconds 0 * 1000)%Q 0)
    = request_pillar (mkRequest "data:encrypt" [("plaintext", VStr "PHI-123")] []
                        (Some OBSERVE)).
Proof.
  split; [vm_compute; reflexivity |].
  apply (pillar_echoes_request demo_registry None
           (mkRequest "data:encrypt" [("plaintext", VStr "PHI-123")] [] (Some OBSERVE))
           quiet_world _ quiet_world).
  vm_compute; reflexivity.
Defined.

(** The dispatcher only appends to the primary audit log.  For a registered
    capability the log after the invocation is the log the handler left,
    followed by at most one event. *)
Theorem audit_log_only_grows (registry : CapabilityRegistry) (al : option AuditLogger)
    (request : CapabilityRequest) (w : World) (handler : Handler) :
  get_handler registry (capability request) = Some handler →
  let w1 := snd (await_call handler (terms request) w) in
  ∃ added,
    audit_log (snd (invoke_capability registry al request w)) = audit_log w1 ++ added
    ∧ (length added ≤ 1)%nat.
Proof.
  intros Hreg w1. unfold w1.
  destruct (await_call handler (terms request) w) as [[r | e] w1'] eqn:Hh; simpl.
  - destruct al as [al |].
    + pose proof (AuditTrail.grows_by_at_most_one al "CAPABILITY_INVOKE"
                    (dict_get (context request) "user_id" (VStr "SYSTEM"))
                    (capability request) "EXECUTE"
                    (Some [("terms", VDict (terms request))]) w1') as Hgrow.
      destruct (log_event al "CAPABILITY_INVOKE"
                  (dict_get (context request) "user_id" (VStr "SYSTEM"))
                  (capability request) "EXECUTE"
                  (Some [("terms", VDict (terms request))]) w1') as [[[] | e] w2] eqn:Hl.
      * rewrite (Dispatch.handler_returns_audit_done
                   registry request w handler Hreg al r w1' w2 Hh Hl).
        simpl in *. destruct Hgrow as [-> | ->].
        -- exists []. rewrite app_nil_r. split; [reflexivity | simpl; lia].
        -- eexists. split; [reflexivity | simpl; lia].
      * rewrite (Dispatch.handler_returns_audit_raises
                   registry request w handler Hreg al r w1' e w2 Hh Hl).
        simpl in *. destruct Hgrow as [-> | ->].
        -- exists []. rewrite app_nil_r. split; [reflexivity | simpl; lia].
        -- eexists. split; [reflexivity | simpl; lia].
    + rewrite (Dispatch.handler_returns_no_logger registry request w handler Hreg r w1' Hh).
      exists []. rewrite app_nil_r. split; [reflexivity | simpl; lia].
  - rewrite (Dispatch.handler_raises registry request w handler Hreg al e w1' Hh).
    exists []. rewrite app_nil_r. split; [reflexivity | simpl; lia].
Qed.

Lemma audit_log_only_grows_witness :
  ∃ added,
    audit_log (snd (invoke_capability demo_registry (Some demo_logger) encrypt_request
                      broken_store_world))
    = audit_log (snd (await_call (AsyncFn (handle_data_encrypt demo_service))
                        (terms encrypt_request) broken_store_world)) ++ added
    ∧ (length added ≤ 1)%nat.
Proof.
  apply (audit_log_only_grows demo_registry (Some demo_logger) encrypt_request
           broken_store_world (AsyncFn (handle_data_encrypt demo_service))).
  vm_compute; reflexivity.
Defined.

(** The audit event of a successful [data:encrypt] keeps the request's
    terms as they came: the plaintext that was to be protected is written
    into the audit log in the clear. *)
Theorem plaintext_reaches_audit_log (svc : EncryptionService)
    (registry : CapabilityRegistry) (al : AuditLogger)
    (request : CapabilityRequest) (x : string) (w : World) :
  capability request = "data:encrypt" →
  get_handler registry "data:encrypt" = Some (AsyncFn (handle_data_encrypt svc)) →
  dict_lookup "plaintext" (terms request) = Some (VStr x) →
  x ≠ "" →
  store_accepts w = true →
  ∃ response w' ev,
    invoke_capability registry (Some al) request w = (Response response, w')
    ∧ last (audit_log w') = Some ev
    ∧ ∃ logged,
        dict_lookup "terms" (details ev) = Some (VDict logged)
        ∧ dict_lookup "plaintext" logged = Some (VStr x).
Proof.
  intros Hcap Hreg Hget Hx Hacc.
  rewrite <- Hcap in Hreg.
  set (w1 := set_entropy (drop 16%nat (entropy w)) w).
  assert (Hh : await_call (AsyncFn (handle_data_encrypt svc)) (terms request) w
               = (Returned [("ciphertext", VStr (token_of svc x w))], w1))
    by (simpl; by apply Encryption.handle_data_encrypt_str).
  destruct (Dispatch.registered_gets_response registry request w _ Hreg (Some al))
    as (response & w' & Hinv).
  pose proof (Dispatch.audit_log_after registry request w _ Hreg al) as Hlog.
  rewrite Hh in Hlog. simpl in Hlog. specialize (Hlog Hacc).
  rewrite Hinv in Hlog. simpl in Hlog.
  exists response, w', (invoke_event request (now w)). split; [exact Hinv |]. split.
  - rewrite Hlog. apply last_snoc.
  - exists (terms request). split; [reflexivity | exact Hget].
Qed.

Lemma plaintext_reaches_audit_log_witness :
  ∃ response w' ev,
    invoke_capability demo_registry (Some demo_logger) encrypt_request quiet_world
    = (Response response, w')
    ∧ last (audit_log w') = Some ev
    ∧ ∃ logged,
        dict_lookup "terms" (details ev) = Some (VDict logged)
        ∧ dict_lookup "plaintext" logged = Some (VStr "PHI-123").
Proof.
  apply (plaintext_reaches_audit_log demo_service demo_registry demo_logger
           encrypt_request "PHI-123" quiet_world);
    try (vm_compute; reflexivity).
  discriminate.
Defined.

End Envelope.

(** ** The inputs of the encryption handlers *)

Module CipherInputs.

Lemma truthy_str_iff (s : string) : truthy (VStr s) = true ↔ s ≠ "".
Proof.
  simpl. rewrite negb_true_iff. split.
  - intros H. by apply String.eqb_neq.
  - intros H. by apply String.eqb_neq.
Qed.

Section Service.

Variable svc : EncryptionService.

(** What [data:encrypt] does with any terms, by the value under
    "plaintext". *)
Lemma encrypt_cases (terms : PyDict) (w : World) :
  match dict_get terms "plaintext" VNone with
  | VStr s =>
      if String.eqb s "" then
        handle_data_encrypt svc terms w
        = (Raised (mkExc ValueError "Missing 'plaintext' in terms"), w)
      else
        handle_data_encrypt svc terms w
        = (Returned [("ciphertext", VStr (token_of svc s w))],
           set_entropy (drop 16%nat (entropy w)) w)
  | _ =>
      ∃ e, handle_data_encrypt svc terms w = (Raised e, w)
           ∧ (exc_class e = ValueError ∨ exc_class e = AttributeError)
  end.
Proof.
  unfold handle_data_encrypt.
  destruct (dict_get terms "plaintext" VNone) as [| b | n | q | s | l | d] eqn:Hv; simpl.
  - eexists. split; [reflexivity | by left].
  - destruct b; simpl; eexists; (split; [reflexivity |]); [by right | by left].
  - destruct (Z.eqb n 0); simpl; eexists; (split; [reflexivity |]); [by left | by right].
  - destruct (Qeq_bool q 0); simpl; eexists; (split; [reflexivity |]); [by left | by right].
  - destruct (String.eqb s ""); reflexivity.
  - destruct l; simpl; eexists; (split; [reflexivity |]); [by left | by right].
  - destruct d; simpl; eexists; (split; [reflexivity |]); [by left | by right].
Qed.



Hypothesis contract : FernetContract (cipher svc).

(** A ciphertext determines its plaintext: when two [data:encrypt] calls,
    at any times and with any entropy, return the same ciphertext, they
    were given the same plaintext. *)
Theorem ciphertext_determines_plaintext (terms1 terms2 : PyDict) (w1 w2 w1' w2' : World)
    (d : PyDict) :
  handle_data_encrypt svc terms1 w1 = (Returned d, w1') →
  handle_data_encrypt svc terms2 w2 = (Returned d, w2') →
  dict_lookup "plaintext" terms1 = dict_lookup "plaintext" terms2.
Proof.
  intros H1 H2.
  pose proof (encrypt_cases terms1 w1) as C1.
  pose proof (encrypt_cases terms2 w2) as C2.
  unfold dict_get in C1, C2.
  destruct (dict_lookup "plaintext" terms1) as [[| b | n | q | s1 | l | dd] |];
    try (destruct C1 as (e & He & _); rewrite He in H1; discriminate H1).
  destruct (dict_lookup "plaintext" terms2) as [[| b | n | q | s2 | l | dd] |];
    try (destruct C2 as (e & He & _); rewrite He in H2; discriminate H2).
  destruct (String.eqb s1 ""); [rewrite C1 in H1; discriminate H1 |].
  destruct (String.eqb s2 ""); [rewrite C2 in H2; discriminate H2 |].
  rewrite C1 in H1. rewrite C2 in H2.
  injection H1 as <- _. injection H2 as Htok _.
  pose proof (Encryption.decrypt_token svc contract s1 w1 w1) as D1.
  pose proof (Encryption.decrypt_token svc contract s2 w2 w1) as D2.
  rewrite Htok in D2. rewrite D1 in D2. injection D2 as ->. reflexivity.
Qed.

End Service.

Lemma ciphertext_determines_plaintext_witness :
  dict_lookup "plaintext" [("plaintext", VStr "PHI-123"); ("note", VStr "a")]
  = dict_lookup "plaintext" [("plaintext", VStr "PHI-123")].
Proof.
  apply (ciphertext_determines_plaintext demo_service Encryption.marker_cipher_contract
           [("plaintext", VStr "PHI-123"); ("note", VStr "a")]
           [("plaintext", VStr "PHI-123")]
           quiet_world slow_store_world quiet_world slow_store_world
           [("ciphertext", VStr "gPHI-123")]);
    vm_compute; reflexivity.
Defined.

End CipherInputs.

(** ** The backup service *)

Module BackupService.

Import BackupApi.

Lemma backup_register_all_cons name h rest r w :
  register_all ((name, h) :: rest) r w
  = register_all rest (fst (Backup.register r name h w)) (snd (Backup.register r name h w)).
Proof. reflexivity. Qed.

Lemma warnings_app l1 l2 : warnings (l1 ++ l2) = (warnings l1 + warnings l2)%nat.
Proof. unfold warnings. by rewrite List.filter_app, length_app. Qed.

(** One call adds one to the sum of the warnings logged and the names
    registered: a warning when the name was there, a name when it was not. *)
Lemma register_step r name h w :
  (warnings (log_records (snd (Backup.register r name h w)))
   + size (Backup._registry (fst (Backup.register r name h w))))%nat
  = S (warnings (log_records w) + size (Backup._registry r)).
Proof.
  unfold Backup.register. simpl. rewrite map_size_insert.
  destruct (Backup._registry r !! name) eqn:Hl; simpl.
  - rewrite !warnings_app. unfold warnings at 2 3. simpl. lia.
  - rewrite !warnings_app. unfold warnings at 2. simpl. lia.
Qed.

Lemma register_all_balance calls :
  ∀ r w,
    (warnings (log_records (snd (register_all calls r w)))
     + size (Backup._registry (fst (register_all calls r w))))%nat
    = (warnings (log_records w) + size (Backup._registry r) + length calls)%nat.
Proof.
  induction calls as [| [name h] rest IH]; intros r w.
  - simpl. lia.
  - rewrite backup_register_all_cons, IH, register_step. simpl. lia.
Qed.

Lemma backup_register_all_dom calls :
  ∀ r w, dom (Backup._registry (fst (register_all calls r w)))
         = list_to_set (fst <$> calls) ∪ dom (Backup._registry r).
Proof.
  induction calls as [| [name h] rest IH]; intros r w.
  - simpl. by rewrite (left_id_L ∅ (∪)).
  - rewrite backup_register_all_cons, IH. unfold Backup.register. simpl.
    rewrite dom_insert_L, (assoc_L (∪)). f_equal. apply (comm_L (∪)).
Qed.

Lemma remove_dups_length (l : list string) : (length (remove_dups l) ≤ length l)%nat.
Proof.
  induction l as [| x l IH]; simpl; [lia |].
  destruct (decide_rel elem_of x l); simpl; lia.
Qed.

(** Overwriting is observable in the backup registry: over a sequence of
    [register] calls on a fresh registry, exactly one WARNING is logged for
    each call that registers a name already there, so the warnings number
    the calls minus the distinct names. *)
Theorem one_warning_per_overwrite (calls : list (string * Handler)) (w : World) :
  let out := register_all calls Backup.registry_init w in
  warnings (log_records (snd out))
  = (warnings (log_records w) + (length calls - length (remove_dups (fst <$> calls))))%nat
  ∧ (length (remove_dups (fst <$> calls)) ≤ length calls)%nat.
Proof.
  intros out.
  pose proof (register_all_balance calls Backup.registry_init w) as Hbal.
  assert (Hsize : size (Backup._registry (fst out)) = length (remove_dups (fst <$> calls))).
  { rewrite <- (size_dom (Backup._registry (fst out))). unfold out.
    rewrite backup_register_all_dom. simpl. rewrite dom_empty_L, (right_id_L ∅ (∪)).
    rewrite <- (size_list_to_set (C := gset string) (remove_dups (fst <$> calls)))
      by apply NoDup_remove_dups.
    f_equal. apply set_eq. intros x.
    rewrite !elem_of_list_to_set, elem_of_remove_dups. reflexivity. }
  fold out in Hbal. rewrite Hsize in Hbal. simpl in Hbal.
  rewrite map_size_empty in Hbal.
  assert (Hle : (length (remove_dups (fst <$> calls)) ≤ length calls)%nat).
  { rewrite <- (length_fmap fst calls). apply remove_dups_length. }
  split; [lia | exact Hle].
Qed.

(** [negotiate_core], case by case.  For a registered capability it
    never raises: it returns a dict that echoes the capability and has
    status "ok" with the handler's result, or status "error" with the
    message of the exception the handler raised, whichever kind of callable
    the handler is.  For a name that is not registered it raises
    [CapabilityError] naming it, after one WARNING. *)
Lemma negotiate_core_eval (registry : Backup.CapabilityRegistry) (name : string)
    (args : PyDict) (w : World) :
  match Backup.get registry name with
  | Some handler =>
      match handler_body handler args w with
      | (Returned r, w1) =>
          Backup.negotiate_core registry name args w
          = (Returned [("status", VStr "ok"); ("capability", VStr name);
                       ("result", VDict r)], w1)
      | (Raised e, w1) =>
          Backup.negotiate_core registry name args w
          = (Returned [("status", VStr "error"); ("capability", VStr name);
                       ("error", VStr (exc_str e))],
             set_log_records (log_records w1 ++ [(ERROR, MsgInvocationFailed)]) w1)
      end
  | None =>
      Backup.negotiate_core registry name args w
      = (Raised (mkExc CapabilityError ("Capability not found: " +:+ name)),
         set_log_records (log_records w ++ [(WARNING, MsgNotFound name)]) w)
  end.
Proof.
  unfold Backup.negotiate_core.
  destruct (Backup.get registry name) as [handler |].
  - unfold Backup.negotiate_try, mbind, M_bind, bind, mret, M_ret, ret.
    destruct handler as [body | body]; simpl;
      destruct (body args w) as [[r | e] w1]; reflexivity.
  - reflexivity.
Qed.

Section Endpoint.

Variable http_exception_str : Z → PyVal → string.

(** The status of [/negotiate].  An unknown capability is a 404 whose
    detail names it; a handler that returns gives the body with status
    "ok"; a handler that raises gives a 500 whose detail is not the
    handler's message but the text of the [HTTPException] that carried it,
    because that exception is caught by the endpoint's own
    [except Exception] and raised anew.  A body never has status
    "error". *)
Theorem endpoint_status (registry : Backup.CapabilityRegistry)
    (request : NegotiateRequest) (w : World) :
  let out := negotiate_endpoint http_exception_str registry request w in
  match Backup.get registry (capability request) with
  | None =>
      fst out = HTTPError 404 ("Capability not found: " +:+ capability request)
  | Some handler =>
      match handler_body handler (terms request) w with
      | (Returned r, _) =>
          fst out = Body [("status", VStr "ok"); ("capability", VStr (capability request));
                          ("result", VDict r)]
      | (Raised e, _) =>
          fst out = HTTPError 500 (http_exception_str 500 (VStr (exc_str e)))
      end
  end.
Proof.
  intros out. unfold out, negotiate_endpoint.
  pose proof (negotiate_core_eval registry (capability request) (terms request) w) as Hc.
  destruct (Backup.get registry (capability request)) as [handler |].
  - destruct (handler_body handler (terms request) w) as [[r | e] w1];
      rewrite Hc; reflexivity.
  - rewrite Hc. reflexivity.
Qed.

End Endpoint.

Lemma below_iff (x : Q) : negb (Qle_bool (inject_Z 90) x) = true ↔ (x < inject_Z 90)%Q.
Proof.
  rewrite negb_true_iff. split.
  - intros H. apply Qnot_le_lt. intros Hle. apply Qle_bool_iff in Hle. congruence.
  - intros H. destruct (Qle_bool (inject_Z 90) x) eqn:E; [| reflexivity].
    apply Qle_bool_iff in E. by apply Qlt_not_le in H.
Qed.

(** The handler, case by case. *)
Lemma sepsis_eval (args : PyDict) (w : World) :
  handle_clinical_sepsis_risk args w
  = match dict_lookup "vitals" args with
    | Some (VDict (kv :: rest)) =>
        match dict_lookup "blood_pressure" (kv :: rest) with
        | Some bp =>
            match num_value bp with
            | Some x => (Returned (sepsis_answer (negb (Qle_bool (inject_Z 90) x))), w)
            | None =>
                (Raised (mkExc TypeError
                           ("'<' not supported between instances of '"
                            +:+ type_name bp +:+ "' and 'int'")), w)
            end
        | None =>
            (Raised (mkExc TypeError
                       "'<' not supported between instances of 'NoneType' and 'int'"), w)
        end
    | Some v =>
        if truthy v then
          (Raised (mkExc AttributeError
                     ("'" +:+ type_name v +:+ "' object has no attribute 'get'")), w)
        else (Returned (sepsis_answer false), w)
    | None => (Returned (sepsis_answer false), w)
    end.
Proof.
  unfold handle_clinical_sepsis_risk, dict_get.
  destruct (dict_lookup "vitals" args) as [v |]; [| reflexivity].
  destruct v as [| b | n | q | s | l | vitals].
  7: { destruct vitals as [| kv rest]; [reflexivity |].
       cbn [truthy].
       unfold py_get, py_compare, dict_get, mbind, M_bind, bind, mret, M_ret, ret, raise.
       destruct (dict_lookup "blood_pressure" (kv :: rest)) as [bp |]; [| reflexivity].
       destruct (num_value bp); reflexivity. }
  all: simpl; try reflexivity.
  - by destruct b.
  - by destruct (Z.eqb n 0).
  - by destruct (Qeq_bool q 0).
  - by destruct (String.eqb s "").
  - by destruct l.
Qed.

Lemma sepsis_answer_low (low : bool) :
  dict_lookup "recommendation" (sepsis_answer low)
  = Some (VStr (if low then "INITIATE_SEPSIS_PROTOCOL" else "LOW_RISK")).
Proof. destruct low; vm_compute; reflexivity. Qed.

(** The one rule of the backup's sepsis handler.  It recommends
    INITIATE_SEPSIS_PROTOCOL exactly when the vitals are a non-empty object
    whose "blood_pressure" is a number below 90.  Terms without vitals, or
    with null or empty vitals, are not an error: they are answered
    LOW_RISK. *)
Theorem sepsis_protocol_iff (args : PyDict) (w : World) :
  ((∃ d w', handle_clinical_sepsis_risk args w = (Returned d, w')
            ∧ dict_lookup "recommendation" d = Some (VStr "INITIATE_SEPSIS_PROTOCOL"))
   ↔ ∃ vitals bp x,
       dict_lookup "vitals" args = Some (VDict vitals) ∧ vitals ≠ []
       ∧ dict_lookup "blood_pressure" vitals = Some bp
       ∧ num_value bp = Some x ∧ (x < inject_Z 90)%Q)
  ∧ (truthy (dict_get args "vitals" VNone) = false →
     ∃ d, handle_clinical_sepsis_risk args w = (Returned d, w)
          ∧ dict_lookup "recommendation" d = Some (VStr "LOW_RISK")).
Proof.
  rewrite sepsis_eval. unfold dict_get.
  assert (Hno : dict_lookup "recommendation" (sepsis_answer false)
                = Some (VStr "INITIATE_SEPSIS_PROTOCOL") → False)
    by (intros H; rewrite sepsis_answer_low in H; discriminate H).
  destruct (dict_lookup "vitals" args) as [v |].
  - destruct v as [| b | n | q | s | l | vitals].
    1-6: split;
         [ split;
           [ intros (d & w' & Hh & Hrec);
             repeat match goal with
                    | H : context [if ?c then _ else _] |- _ => destruct c
                    end;
             try discriminate Hh; injection Hh as <- _; destruct (Hno Hrec)
           | intros (vitals & bp & x & Hv & _); discriminate Hv ]
         | simpl; intros Hf; rewrite ?Hf;
           try (eexists; split; [reflexivity | apply sepsis_answer_low]);
           try discriminate Hf ].
    destruct vitals as [| kv rest].
    + split.
      * split.
        -- intros (d & w' & Hh & Hrec). simpl in Hh. injection Hh as <- _.
           destruct (Hno Hrec).
        -- intros (vitals & bp & x & [= <-] & Hne & _). by destruct Hne.
      * intros _. simpl. eexists. split; [reflexivity | apply sepsis_answer_low].
    + split; [| discriminate].
      destruct (dict_lookup "blood_pressure" (kv :: rest)) as [bp |] eqn:Hbp.
      * destruct (num_value bp) as [x |] eqn:Hx.
        -- split.
           ++ intros (d & w' & [= <- _] & Hrec). rewrite sepsis_answer_low in Hrec.
              destruct (negb (Qle_bool (inject_Z 90) x)) eqn:Hlow; [| discriminate Hrec].
              exists (kv :: rest), bp, x. repeat split; try done. by apply below_iff.
           ++ intros (vitals & bp' & x' & [= <-] & _ & Hbp' & Hx' & Hlt).
              rewrite Hbp in Hbp'. injection Hbp' as <-.
              rewrite Hx in Hx'. injection Hx' as <-.
              apply below_iff in Hlt. rewrite Hlt.
              do 2 eexists. split; [reflexivity | apply sepsis_answer_low].
        -- split.
           ++ intros (d & w' & Hh & _). discriminate Hh.
           ++ intros (vitals & bp' & x' & [= <-] & _ & Hbp' & Hx' & _).
              rewrite Hbp in Hbp'. injection Hbp' as <-. congruence.
      * split.
        -- intros (d & w' & Hh & _). discriminate Hh.
        -- intros (vitals & bp' & x' & [= <-] & _ & Hbp' & _).
           rewrite Hbp in Hbp'. discriminate Hbp'.
  - split.
    + split.
      * intros (d & w' & [= <- _] & Hrec). destruct (Hno Hrec).
      * intros (vitals & bp & x & Hv & _). discriminate Hv.
    + intros _. eexists. split; [reflexivity | apply sepsis_answer_low].
Qed.

(** A reading that is missing is not a low reading.  For vitals that are a
    non-empty object without "blood_pressure", the comparison of [None]
    with 90 raises [TypeError]; through [negotiate_core] the caller gets
    status "error" with that message, not a risk score. *)
Theorem missing_reading_is_an_error (registry : Backup.CapabilityRegistry)
    (name : string) (args vitals : PyDict) (w : World) :
  Backup.get registry name = Some (SyncFn handle_clinical_sepsis_risk) →
  dict_lookup "vitals" args = Some (VDict vitals) →
  vitals ≠ [] →
  dict_lookup "blood_pressure" vitals = None →
  fst (Backup.negotiate_core registry name args w)
  = Returned [("status", VStr "error"); ("capability", VStr name);
              ("error",
               VStr "'<' not supported between instances of 'NoneType' and 'int'")].
Proof.
  intros Hreg Hv Hne Hbp.
  pose proof (negotiate_core_eval registry name args w) as Hc.
  rewrite Hreg in Hc. simpl in Hc.
  assert (Hh : handle_clinical_sepsis_risk args w
               = (Raised (mkExc TypeError
                            "'<' not supported between instances of 'NoneType' and 'int'"),
                  w)).
  { rewrite sepsis_eval, Hv. destruct vitals as [| kv vitals']; [done |].
    by rewrite Hbp. }
  rewrite Hh in Hc. rewrite Hc. reflexivity.
Qed.

Lemma missing_reading_is_an_error_witness :
  fst (Backup.negotiate_core backup_demo_registry "clinical:sepsis_risk"
         [("vitals", VDict [("heart_rate", VInt 120)])] quiet_world)
  = Returned [("status", VStr "error"); ("capability", VStr "clinical:sepsis_risk");
              ("error",
               VStr "'<' not supported between instances of 'NoneType' and 'int'")].
Proof.
  refine (missing_reading_is_an_error backup_demo_registry "clinical:sepsis_risk"
            [("vitals", VDict [("heart_rate", VInt 120)])] [("heart_rate", VInt 120)]
            quiet_world _ _ _ _).
  - reflexivity.
  - reflexivity.
  - discriminate.
  - reflexivity.
Defined.

End BackupService.

(** ** The clinical and analytics handlers *)

Module Clinical.

Import ML.

Ltac run_handler :=
  cbv beta iota delta [predict_sepsis_risk handle_analytics_readmission_risk
                       py_get py_compare py_or bind ret mbind M_bind mret M_ret raise].

(** The risk level of [predict_sepsis_risk] counts the criteria met.  For
    vitals whose four readings, given or defaulted, are numbers, the call
    returns, and the level is LOW for at most one criterion met, MEDIUM for
    exactly two and HIGH for three or four, whichever criteria they are:
    the different weights never change the level. *)
Theorem sepsis_level_counts_criteria (d : PyDict) (w : World) (t h b c : Q) :
  num_value (dict_get d "temperature" (VFloat (Q_of_float 98.6))) = Some t →
  num_value (dict_get d "heart_rate" (VInt 80)) = Some h →
  num_value (dict_get d "bp_systolic" (VInt 120)) = Some b →
  num_value (dict_get d "wbc_count" (VFloat (Q_of_float 7.5))) = Some c →
  ∃ out,
    predict_sepsis_risk (VDict d) w = (Returned out, w)
    ∧ dict_lookup "risk_level" out
      = Some (VStr (level_of_count (count_true (sepsis_criteria t h b c)))).
Proof.
  intros Ht Hh Hb Hc. run_handler.
  rewrite Ht. cbv beta iota. rewrite Hh. cbv beta iota. rewrite Hb, Hc. cbv beta iota.
  unfold sepsis_criteria.
  destruct (Qle_bool t (Q_of_float 100.4)), (Qle_bool (Q_of_float 96.8) t),
    (Qle_bool h (inject_Z 90)), (Qle_bool (inject_Z 100) b),
    (Qle_bool c (inject_Z 12)), (Qle_bool (inject_Z 4) c);
    (eexists; split; [reflexivity | vm_compute; reflexivity]).
Qed.

Lemma sepsis_level_counts_criteria_witness :
  ∃ out,
    predict_sepsis_risk
      (VDict [("temperature", VFloat (Q_of_float 101.2)); ("bp_systolic", VInt 95)])
      quiet_world
    = (Returned out, quiet_world)
    ∧ dict_lookup "risk_level" out
      = Some (VStr (level_of_count
                      (count_true
                         (sepsis_criteria (Q_of_float 101.2) (inject_Z 80) (inject_Z 95)
                            (Q_of_float 7.5))))).
Proof.
  apply (sepsis_level_counts_criteria
           [("temperature", VFloat (Q_of_float 101.2)); ("bp_systolic", VInt 95)]
           quiet_world);
    reflexivity.
Defined.

(** A reading that is absent counts as normal, but vitals that are empty
    count as missing.  Through [handle_clinical_sepsis_risk], vitals that
    are a non-empty object carrying none of the four readings are answered
    with a score of 0.0, level LOW and "Continue monitoring"; vitals that
    are the empty object are refused with [ValueError], like absent ones. *)
Theorem absent_readings_are_normal (terms d : PyDict) (w : World) :
  dict_lookup "vitals" terms = Some (VDict d) →
  dict_lookup "temperature" d = None →
  dict_lookup "heart_rate" d = None →
  dict_lookup "bp_systolic" d = None →
  dict_lookup "wbc_count" d = None →
  handle_clinical_sepsis_risk terms w
  = if decide (d = []) then
      (Raised (mkExc ValueError "Missing 'vitals' in terms"), w)
    else
      (Returned [("risk_score", VFloat (Q_of_float 0.0));
                 ("risk_level", VStr "LOW");
                 ("recommendation", VStr "Continue monitoring");
                 ("confidence", VFloat (Q_of_float 0.85))], w).
Proof.
  intros Hv Ht Hh Hb Hc. unfold handle_clinical_sepsis_risk, dict_get. rewrite Hv.
  destruct d as [| kv d']; [reflexivity |].
  rewrite decide_False by discriminate. cbn [truthy negb].
  run_handler. unfold dict_get. rewrite Ht, Hh, Hb, Hc. vm_compute. reflexivity.
Qed.

Lemma absent_readings_are_normal_witness :
  handle_clinical_sepsis_risk [("vitals", VDict [("spo2", VInt 91)])] quiet_world
  = (Returned [("risk_score", VFloat (Q_of_float 0.0));
               ("risk_level", VStr "LOW");
               ("recommendation", VStr "Continue monitoring");
               ("confidence", VFloat (Q_of_float 0.85))], quiet_world).
Proof.
  apply (absent_readings_are_normal [("vitals", VDict [("spo2", VInt 91)])]
           [("spo2", VInt 91)] quiet_world);
    reflexivity.
Defined.

(** A reading that is present but is not a number fails the call.  When
    the temperature is given as null, a string, a list or an object,
    [predict_sepsis_risk] raises [TypeError] at its first comparison and
    returns no assessment; the default of 98.6 applies only to an absent
    key. *)
Theorem temperature_must_be_a_number (d : PyDict) (w : World) (v : PyVal) :
  dict_lookup "temperature" d = Some v →
  num_value v = None →
  predict_sepsis_risk (VDict d) w
  = (Raised (mkExc TypeError
               ("'>' not supported between instances of '" +:+ type_name v
                +:+ "' and 'float'")), w).
Proof.
  intros Hv Hn. run_handler. unfold dict_get. rewrite Hv, Hn. reflexivity.
Qed.

Lemma temperature_must_be_a_number_witness :
  predict_sepsis_risk (VDict [("temperature", VStr "101.2")]) quiet_world
  = (Raised (mkExc TypeError
               "'>' not supported between instances of 'str' and 'float'"), quiet_world).
Proof.
  apply (temperature_must_be_a_number [("temperature", VStr "101.2")] quiet_world
           (VStr "101.2"));
    reflexivity.
Defined.

(** The risk level of [handle_analytics_readmission_risk] in terms of its
    three factors.  For patient data whose three entries, given or
    defaulted to 0, are numbers: the level is HIGH exactly when there are
    more than two chronic conditions together with age above 65 or a recent
    admission; age and a recent admission alone are MEDIUM, as are the
    chronic conditions alone; anything less is LOW.  The discharge
    intervention is recommended exactly for HIGH, the factors are listed in
    the order tested, and the score is never above 1.0. *)
Theorem readmission_levels (terms pd : PyDict) (w : World) (a c r : Q) :
  dict_lookup "patient_data" terms = Some (VDict pd) →
  num_value (dict_get pd "age" (VInt 0)) = Some a →
  num_value (dict_get pd "chronic_conditions" (VInt 0)) = Some c →
  num_value (dict_get pd "previous_admissions_30d" (VInt 0)) = Some r →
  let old := negb (Qle_bool a (inject_Z 65)) in
  let chronic := negb (Qle_bool c (inject_Z 2)) in
  let recent := negb (Qle_bool r (inject_Z 0)) in
  let high := chronic && (old || recent) in
  ∃ out score,
    handle_analytics_readmission_risk terms w = (Returned out, w)
    ∧ dict_lookup "risk_level" out
      = Some (VStr (if high then "HIGH"
                    else if chronic || (old && recent) then "MEDIUM"
                    else "LOW"))
    ∧ dict_lookup "recommendation" out
      = Some (VStr (if high then "Consider discharge planning intervention"
                    else "Standard discharge protocol"))
    ∧ dict_lookup "risk_factors" out
      = Some (VList ((if old then [VStr "Age > 65"] else [])
                     ++ (if chronic then [VStr "Multiple chronic conditions"] else [])
                     ++ (if recent then [VStr "Recent admission"] else [])))
    ∧ dict_lookup "risk_score" out = Some (VFloat score)
    ∧ (score <= inject_Z 1)%Q.
Proof.
  intros Hpd Ha Hc Hr. run_handler. unfold dict_get at 1. rewrite Hpd.
  cbv beta iota. rewrite Ha. cbv beta iota. rewrite Hc. cbv beta iota. rewrite Hr.
  cbv beta iota zeta.
  destruct (Qle_bool a (inject_Z 65)), (Qle_bool c (inject_Z 2)),
    (Qle_bool r (inject_Z 0));
    (do 2 eexists; split; [reflexivity |];
     repeat (split; [vm_compute; reflexivity |]);
     vm_compute; discriminate).
Qed.

Lemma readmission_levels_witness :
  let terms :=
    [("patient_data", VDict [("age", VInt 70); ("previous_admissions_30d", VInt 1)])] in
  ∃ out score,
    handle_analytics_readmission_risk terms quiet_world = (Returned out, quiet_world)
    ∧ dict_lookup "risk_level" out = Some (VStr "MEDIUM")
    ∧ dict_lookup "recommendation" out = Some (VStr "Standard discharge protocol")
    ∧ dict_lookup "risk_factors" out
      = Some (VList ([VStr "Age > 65"] ++ [] ++ [VStr "Recent admission"]))
    ∧ dict_lookup "risk_score" out = Some (VFloat score)
    ∧ (score <= inject_Z 1)%Q.
Proof.
  apply (readmission_levels
           [("patient_data", VDict [("age", VInt 70); ("previous_admissions_30d", VInt 1)])]
           [("age", VInt 70); ("previous_admissions_30d", VInt 1)]
           quiet_world (inject_Z 70) (inject_Z 0) (inject_Z 1));
    reflexivity.
Defined.

(** Absent patient data is not an error, null patient data is.  Terms
    without "patient_data" are answered LOW with no factors; terms whose
    "patient_data" is null raise [AttributeError], because the default
    object stands in only for an absent key. *)
Theorem patient_data_absent_or_null (terms : PyDict) (w : World) :
  (dict_lookup "patient_data" terms = None →
   handle_analytics_readmission_risk terms w
   = (Returned [("risk_score", VFloat (Q_of_float 0.0));
                ("risk_level", VStr "LOW");
                ("risk_factors", VList []);
                ("recommendation", VStr "Standard discharge protocol")], w))
  ∧ (dict_lookup "patient_data" terms = Some VNone →
     handle_analytics_readmission_risk terms w
     = (Raised (mkExc AttributeError "'NoneType' object has no attribute 'get'"), w)).
Proof.
  split; intros Hpd; run_handler; unfold dict_get at 1; rewrite Hpd.
  - vm_compute. reflexivity.
  - reflexivity.
Qed.

End Clinical.

(** ** Drug interactions *)

Module Interactions.

Import ML.

Lemma prefix_append (needle rest : string) : String.prefix needle (needle +:+ rest) = true.
Proof.
  induction needle as [| c needle IH]; simpl.
  - by destruct rest.
  - destruct (ascii_dec c c); [exact IH | done].
Qed.

Lemma prefix_split (needle hay : string) :
  String.prefix needle hay = true → ∃ rest, hay = needle +:+ rest.
Proof.
  revert needle. induction hay as [| x hay IH]; intros needle; simpl.
  - destruct needle; [| discriminate]. intros _. by exists "".
  - destruct needle as [| c needle]; [intros _; by eexists |].
    destruct (ascii_dec c x) as [-> |]; [| discriminate].
    intros H. destruct (IH needle H) as [rest ->]. by exists rest.
Qed.

Lemma str_in_prefix (needle hay : string) :
  String.prefix needle hay = true → str_in needle hay = true.
Proof. intros H. destruct hay; cbn [str_in]; by rewrite H. Qed.

(** [str_in] is the substring test. *)
Lemma str_in_spec (needle hay : string) :
  str_in needle hay = true ↔ contains needle hay.
Proof.
  split.
  - induction hay as [| x hay IH]; cbn [str_in].
    + destruct (String.prefix needle "") eqn:Hp; [| discriminate].
      intros _. destruct (prefix_split _ _ Hp) as [rest ->]. by exists "", rest.
    + destruct (String.prefix needle (String x hay)) eqn:Hp.
      * intros _. destruct (prefix_split _ _ Hp) as [rest Hr]. by exists "", rest.
      * intros H. destruct (IH H) as (before & after & ->).
        by exists (String x before), after.
  - intros (before & after & ->).
    induction before as [| x before IH].
    + change ("" +:+ needle +:+ after) with (needle +:+ after).
      apply str_in_prefix, prefix_append.
    + change (String x before +:+ needle +:+ after)
        with (String x (before +:+ needle +:+ after)).
      cbn [str_in]. by destruct (String.prefix needle _).
Qed.

(** A needle without a space matches as a prefix of [a ++ " " ++ b] only
    inside [a]. *)
Lemma prefix_before_space (needle a b : string) :
  no_space needle = true →
  String.prefix needle (a +:+ " " +:+ b) = String.prefix needle a.
Proof.
  revert needle. induction a as [| x a IH]; intros needle Hn.
  - destruct needle as [| c needle]; [reflexivity |].
    simpl in *. apply andb_true_iff in Hn as [Hc _].
    destruct (ascii_dec c " ") as [-> |]; [discriminate Hc | reflexivity].
  - destruct needle as [| c needle]; [reflexivity |].
    simpl in *. apply andb_true_iff in Hn as [_ Hn].
    destruct (ascii_dec c x); [by apply IH | reflexivity].
Qed.

Lemma str_in_empty (needle : string) : needle ≠ "" → str_in needle "" = false.
Proof. by destruct needle. Qed.

Lemma str_in_around_space (needle a b : string) :
  needle ≠ "" → no_space needle = true →
  str_in needle (a +:+ " " +:+ b) = str_in needle a || str_in needle b.
Proof.
  intros Hne Hn. induction a as [| x a IH].
  - rewrite (str_in_empty needle Hne). simpl.
    destruct needle as [| c needle]; [done |].
    simpl in Hn. apply andb_true_iff in Hn as [Hc _].
    destruct (ascii_dec c " ") as [-> |]; [discriminate Hc | reflexivity].
  - change (String x a +:+ " " +:+ b) with (String x (a +:+ " " +:+ b)).
    cbn [str_in].
    change (String x (a +:+ " " +:+ b)) with (String x a +:+ " " +:+ b).
    rewrite (prefix_before_space needle (String x a) b Hn), IH.
    by destruct (String.prefix needle (String x a)).
Qed.

(** In the joined names a needle without a space occurs exactly when it
    occurs in one of the names: no match runs across two names. *)
Lemma str_in_joined (needle : string) (names : list string) :
  needle ≠ "" → no_space needle = true →
  str_in needle (String.concat " " names) = existsb (str_in needle) names.
Proof.
  intros Hne Hn. induction names as [| x [| y rest] IH].
  - by apply str_in_empty.
  - simpl. by rewrite orb_false_r.
  - change (String.concat " " (x :: y :: rest))
      with (x +:+ " " +:+ String.concat " " (y :: rest)).
    rewrite (str_in_around_space needle x _ Hne Hn), IH. reflexivity.
Qed.

Lemma existsb_lowered (lower : string → string) (needle : string) (names : list string) :
  existsb (str_in needle) (lower <$> names) = true
  ↔ ∃ n, n ∈ names ∧ contains needle (lower n).
Proof.
  rewrite existsb_exists. split.
  - intros (s & Hin & Hs). apply list_elem_of_In, list_elem_of_fmap in Hin
      as (n & -> & Hn).
    exists n. split; [exact Hn | by apply str_in_spec].
  - intros (n & Hn & Hc). exists (lower n). split.
    + apply list_elem_of_In, list_elem_of_fmap. by exists n.
    + by apply str_in_spec.
Qed.

Section StrMethods.

Variable lower : string → string.
Variable chars : string → list string.

Lemma lower_all_strs (names : list string) (w : World) :
  lower_all lower (VStr <$> names) w = (Returned (lower <$> names), w).
Proof.
  induction names as [| n names IH]; [reflexivity |].
  rewrite !fmap_cons. cbn [lower_all py_lower]. unfold bind, ret. cbv beta iota.
  unfold bind, ret in IH. rewrite IH. reflexivity.
Qed.

(** The combinations found in the joined names. *)
Lemma check_on_names (names : list string) (w : World) :
  let joined := String.concat " " (lower <$> names) in
  let found :=
    List.filter
      (fun combo : string * string * string =>
         match combo with
         | (d1, d2, _) => str_in d1 joined && str_in d2 joined
         end)
      dangerous_combos in
  check_drug_interactions lower chars (VList (VStr <$> names)) w
  = (Returned [("has_interactions", VBool (Nat.ltb 0 (length found)));
               ("interactions", VList (interaction <$> found));
               ("checked_medications", VList (VStr <$> names))], w).
Proof.
  intros joined found.
  unfold check_drug_interactions, py_iter, bind. unfold ret at 1.
  rewrite lower_all_strs. unfold ret. by rewrite length_fmap.
Qed.

(** [check_drug_interactions] on a list of names.  It returns the list as
    checked, and a combination of its table is reported exactly when each
    of its two drugs occurs inside the lowercased form of some name of the
    list: a name may carry more than the drug ("warfarin 5mg"), the two
    drugs may sit in the same name or in different ones, and no match runs
    across two names. *)
Theorem reported_iff_both_named (names : list string) (w : World) :
  ∃ found,
    check_drug_interactions lower chars (VList (VStr <$> names)) w
    = (Returned [("has_interactions", VBool (Nat.ltb 0 (length found)));
                 ("interactions", VList (interaction <$> found));
                 ("checked_medications", VList (VStr <$> names))], w)
    ∧ ∀ d1 d2 warning,
        (d1, d2, warning) ∈ found
        ↔ (d1, d2, warning) ∈ dangerous_combos
          ∧ (∃ n, n ∈ names ∧ contains d1 (lower n))
          ∧ (∃ n, n ∈ names ∧ contains d2 (lower n)).
Proof.
  set (joined := String.concat " " (lower <$> names)).
  exists (List.filter
            (fun combo : string * string * string =>
               match combo with
               | (d1, d2, _) => str_in d1 joined && str_in d2 joined
               end)
            dangerous_combos).
  split.
  - exact (check_on_names names w).
  - intros d1 d2 warning.
    rewrite list_elem_of_In, List.filter_In, <- list_elem_of_In, andb_true_iff.
    split.
    + intros [Hin [H1 H2]]. split; [exact Hin |].
      assert (Hok : d1 ≠ "" ∧ no_space d1 = true ∧ d2 ≠ "" ∧ no_space d2 = true).
      { unfold dangerous_combos in Hin.
        repeat (apply elem_of_cons in Hin as [[= -> -> ->] | Hin]; [by repeat split |]).
        by apply elem_of_nil in Hin. }
      destruct Hok as (N1 & S1 & N2 & S2).
      unfold joined in H1, H2.
      rewrite (str_in_joined d1 _ N1 S1) in H1.
      rewrite (str_in_joined d2 _ N2 S2) in H2.
      split; by apply existsb_lowered.
    + intros [Hin [H1 H2]]. split; [exact Hin |].
      assert (Hok : d1 ≠ "" ∧ no_space d1 = true ∧ d2 ≠ "" ∧ no_space d2 = true).
      { unfold dangerous_combos in Hin.
        repeat (apply elem_of_cons in Hin as [[= -> -> ->] | Hin]; [by repeat split |]).
        by apply elem_of_nil in Hin. }
      destruct Hok as (N1 & S1 & N2 & S2).
      unfold joined.
      rewrite (str_in_joined d1 _ N1 S1), (str_in_joined d2 _ N2 S2).
      split; by apply existsb_lowered.
Qed.

(** An empty medication list is refused, not answered.  Through
    [handle_clinical_drug_interaction], terms whose "medications" are
    absent, null or the empty list raise [ValueError]; a non-empty list of
    names is checked and echoed. *)
Theorem empty_list_is_refused (terms : PyDict) (w : World) :
  (truthy (dict_get terms "medications" VNone) = false →
   handle_clinical_drug_interaction lower chars terms w
   = (Raised (mkExc ValueError "Missing 'medications' in terms"), w))
  ∧ (∀ name names,
        dict_lookup "medications" terms = Some (VList (VStr <$> name :: names)) →
        ∃ out,
          handle_clinical_drug_interaction lower chars terms w = (Returned out, w)
          ∧ dict_lookup "checked_medications" out
            = Some (VList (VStr <$> name :: names))).
Proof.
  split.
  - intros Hf. unfold handle_clinical_drug_interaction. by rewrite Hf.
  - intros name names Hm. unfold handle_clinical_drug_interaction, dict_get.
    rewrite Hm. cbn [truthy fmap list_fmap negb].
    pose proof (check_on_names (name :: names) w) as Hc.
    cbv zeta in Hc. rewrite fmap_cons in Hc. cbn [fmap list_fmap] in Hc. rewrite Hc.
    eexists. split; reflexivity.
Qed.

End StrMethods.

End Interactions.
